(** * Verification of the Telegram VPN-subscription backend (uskoritel-interneta-back)

    Shallow embedding of the user ledger (src/services/telegramUserService.ts),
    the civil-date helpers (shared/date helpers), the invoice payload codec
    (controllers/entities/telegram-callback), the command parser
    (controllers/entities/telegram-command) and the branches of the webhook
    dispatcher (controllers/features/telegram/telegramWebhookController.ts).

    Modelling conventions.
    - Money is kept in integer cents ([Z]); [roundUsd] of the source
      ([Math.round(v * 100) / 100]) is the identity on cents and is written out
      as a half-up rounding where a product with a percentage occurs.
      Binary floating-point error is not modelled.
    - A calendar date (the [Date] at UTC midnight, stored as "YYYY-MM-DD") is a
      day number counted from 1970-01-01; the month arithmetic of
      [Date.prototype.setUTCMonth] is written out with the civil calendar.
    - The row store (Supabase) is a [gmap string user_row] keyed by [tg_id]
      together with a flag telling whether the store answers; a store error
      raises, as [getTelegramUserByTgId] and its siblings throw on [error].
    - The chat transport returns [ok] or fails over HTTP, or its [fetch]
      rejects (network unreachable), which raises. *)

From Stdlib Require Import ZArith Lia Ascii.
From stdpp Require Import base gmap strings list sorting.

Open Scope Z_scope.
#[global] Set Warnings "-register-all".

(* ------------------------------------------------------------------ *)
(** ** Civil calendar (Date at UTC midnight) *)

Module Civil.

(** Day number of a proleptic Gregorian date, [month] in 1..12; the day may
    overflow the month, which then rolls into the next ones as in [MakeDay]. *)
Definition days_from_civil (y m d : Z) : Z :=
  let y' := if m <=? 2 then y - 1 else y in
  let era := y' / 400 in
  let yoe := y' - era * 400 in
  let mp := if m >? 2 then m - 3 else m + 9 in
  let doy := (153 * mp + 2) / 5 + d - 1 in
  let doe := yoe * 365 + yoe / 4 - yoe / 100 + doy in
  era * 146097 + doe - 719468.

(** Year, month (1..12) and day of a day number. *)
Definition civil_from_days (z : Z) : Z * Z * Z :=
  let z' := z + 719468 in
  let era := z' / 146097 in
  let doe := z' - era * 146097 in
  let yoe := (doe - doe / 1460 + doe / 36524 - doe / 146096) / 365 in
  let doy := doe - (365 * yoe + yoe / 4 - yoe / 100) in
  let mp := (5 * doy + 2) / 153 in
  let d := doy - (153 * mp + 2) / 5 + 1 in
  let m := if mp <? 10 then mp + 3 else mp - 9 in
  let y := yoe + era * 400 in
  (if m <=? 2 then y + 1 else y, m, d).

End Civil.

(** [addMonths] (shared date helper):
    [result.setUTCMonth(result.getUTCMonth() + months)]; the day of month is
    kept and overflows into the following month as [MakeDay] does. *)
Definition addMonths (baseDate months : Z) : Z :=
  let '(y, m, d) := Civil.civil_from_days baseDate in
  let mi := (m - 1) + months in
  Civil.days_from_civil (y + mi / 12) (mi mod 12 + 1) 1 + d - 1.

(** Modelled from the spec: [addDays], the shared date helper that is not in
    the sources; the spec grants the trial "expiry = now+3 days". *)
Definition addDays (baseDate days : Z) : Z := baseDate + days.

(* ------------------------------------------------------------------ *)
(** ** Rows of the [users] table *)

Inductive sub_status := live | ending.

#[global] Instance sub_status_eq_dec : EqDecision sub_status.
Proof. solve_decision. Defined.

Record telegram_referral_entry := {
  entry_tgId : string;
  entry_tgLogin : option string;
  entry_tgNickname : option string;
  numberOfPurchase : Z;
}.

Record telegram_referred_by := {
  ref_tgId : string;
  ref_tgNickname : option string;
  referDate : Z;
}.

Record telegram_gift := {
  giftedByTgId : string;
  giftedByTgName : option string;
  timeAmountGifted : Z;
  dateOfGift : Z;
}.

(** [internal_uuid] and the traffic counters are not read by any modelled
    path and are left out of the row. *)
Record user_row := {
  tg_nickname : option string;
  tg_id : string;
  subscription_active : bool;
  subscription_status : option sub_status;
  subscription_untill : option Z;
  number_of_referals : Z;
  earned_money : Z;
  refferals_data : list telegram_referral_entry;
  reffered_by : option telegram_referred_by;
  gifts : list telegram_gift;
}.

Definition set_tg_nickname (n : option string) (u : user_row) : user_row :=
  {| tg_nickname := n; tg_id := tg_id u; subscription_active := subscription_active u;
     subscription_status := subscription_status u; subscription_untill := subscription_untill u;
     number_of_referals := number_of_referals u; earned_money := earned_money u;
     refferals_data := refferals_data u; reffered_by := reffered_by u; gifts := gifts u |}.

(** The [update({ subscription_active, subscription_status, subscription_untill })]
    of the activation paths. *)
Definition set_subscription (active : bool) (st : option sub_status)
    (untill : option Z) (u : user_row) : user_row :=
  {| tg_nickname := tg_nickname u; tg_id := tg_id u; subscription_active := active;
     subscription_status := st; subscription_untill := untill;
     number_of_referals := number_of_referals u; earned_money := earned_money u;
     refferals_data := refferals_data u; reffered_by := reffered_by u; gifts := gifts u |}.

Definition set_earned_money (m : Z) (u : user_row) : user_row :=
  {| tg_nickname := tg_nickname u; tg_id := tg_id u; subscription_active := subscription_active u;
     subscription_status := subscription_status u; subscription_untill := subscription_untill u;
     number_of_referals := number_of_referals u; earned_money := m;
     refferals_data := refferals_data u; reffered_by := reffered_by u; gifts := gifts u |}.

Definition set_referrals (count : Z) (data : list telegram_referral_entry) (u : user_row) : user_row :=
  {| tg_nickname := tg_nickname u; tg_id := tg_id u; subscription_active := subscription_active u;
     subscription_status := subscription_status u; subscription_untill := subscription_untill u;
     number_of_referals := count; earned_money := earned_money u;
     refferals_data := data; reffered_by := reffered_by u; gifts := gifts u |}.

Definition set_gifts (g : list telegram_gift) (u : user_row) : user_row :=
  {| tg_nickname := tg_nickname u; tg_id := tg_id u; subscription_active := subscription_active u;
     subscription_status := subscription_status u; subscription_untill := subscription_untill u;
     number_of_referals := number_of_referals u; earned_money := earned_money u;
     refferals_data := refferals_data u; reffered_by := reffered_by u; gifts := g |}.

Definition new_user_row (tgId : string) (tgNickname : option string) (untill : Z)
    (referredBy : option telegram_referred_by) : user_row :=
  {| tg_nickname := tgNickname; tg_id := tgId; subscription_active := true;
     subscription_status := Some ending; subscription_untill := Some untill;
     number_of_referals := 0; earned_money := 0; refferals_data := [];
     reffered_by := referredBy; gifts := [] |}.

(* ------------------------------------------------------------------ *)
(** ** Catalog rows *)

(** A [subscription_prices] row; [usdt] in cents. *)
Record subscription_price := {
  months : Z;
  stars : Z;
  usdt : Z;
  rubles : Z;
}.

(** A [vps] row. *)
Record vps_row := {
  internal_uuid : string;
  nickname : option string;
  country : string;
  country_emoji : string;
  config_list : list string;
}.

(* ------------------------------------------------------------------ *)
(** ** The world: store, transport, clock and what was sent *)

Inductive transport_state := transport_up | transport_http_error | transport_unreachable.

(** What the bot sent through the chat transport. *)
Inductive outbound :=
  | AnswerPreCheckout (queryId : string) (ok : bool)
  | AnswerCallback (queryId : string)
  | SubscriptionRequiredForServers (chatId : Z)
  | CountriesEmpty (chatId : Z)
  | CountriesList (chatId : Z) (options : list (string * string))
  | VpsListEmpty (chatId : Z) (country : string)
  | VpsList (chatId : Z) (country : string) (uuids : list string)
  | ConfigNotFound (chatId : Z)
  | ConfigListEmpty (chatId : Z)
  | ConfigIntro (chatId : Z)
  | ConfigUrl (chatId : Z) (url : string)
  | PaymentError (chatId : Z)
  | PaymentSuccess (chatId : Z) (months : Z) (untill : option Z).

Record world := {
  users : gmap string user_row;
  subscription_prices : list subscription_price;
  vps : list vps_row;
  store_up : bool;
  transport : transport_state;
  today : Z;
  outbox : list outbound;
}.

Definition set_users (m : gmap string user_row) (w : world) : world :=
  {| users := m; subscription_prices := subscription_prices w; vps := vps w;
     store_up := store_up w; transport := transport w; today := today w; outbox := outbox w |}.

Definition push_outbox (o : outbound) (w : world) : world :=
  {| users := users w; subscription_prices := subscription_prices w; vps := vps w;
     store_up := store_up w; transport := transport w; today := today w;
     outbox := outbox w ++ [o] |}.

(* ------------------------------------------------------------------ *)
(** ** Error-and-state monad: thrown errors keep the writes already made *)

Inductive exn :=
  | StoreError
  | TransportUnreachable
  | UserDisappeared
  | CreateUserFailed
  | RowNotFound
  | InvalidMonths
  | InvalidAmountUsd
  | InvalidGiftIndex
  | InvalidUsdt
  | InsufficientReferralBalance
  | GiftNotFound
  | UserNotFoundForGift.

Definition M (A : Type) : Type := world -> (exn + A) * world.

Definition ret {A} (a : A) : M A := fun w => (inr a, w).
Definition throw {A} (e : exn) : M A := fun w => (inl e, w).
Definition bind {A B} (m : M A) (k : A -> M B) : M B :=
  fun w => match m w with
           | (inl e, w') => (inl e, w')
           | (inr a, w') => k a w'
           end.
(** [try { ... } catch (error) { ... }] *)
Definition catch {A} (m : M A) (h : exn -> M A) : M A :=
  fun w => match m w with
           | (inl e, w') => h e w'
           | (inr a, w') => (inr a, w')
           end.

Notation "'let*' x ':=' c 'in' k" := (bind c (fun x => k))
  (at level 200, x name, c at level 100, k at level 200).

Definition get_world : M world := fun w => (inr w, w).

(** Every store call throws when the store answers with an error. *)
Definition store_guard {A} (k : M A) : M A :=
  fun w => if store_up w then k w else (inl StoreError, w).

(** [getTelegramUserByTgId]: [select ... eq("tg_id", tgId).maybeSingle()]. *)
Definition getTelegramUserByTgId (tgId : string) : M (option user_row) :=
  store_guard (fun w => (inr (users w !! tgId), w)).

(** [insert(...).select().single()]; a duplicate key answers the unique
    violation (code 23505) as [inl tt]. *)
Definition insert_user (row : user_row) : M (unit + user_row) :=
  store_guard (fun w =>
    match users w !! tg_id row with
    | Some _ => (inr (inl tt), w)
    | None => (inr (inr row), set_users (<[tg_id row := row]> (users w)) w)
    end).

(** [update(values).eq("tg_id", tgId)] without select: no row, no error. *)
Definition update_where (tgId : string) (f : user_row -> user_row) : M unit :=
  store_guard (fun w =>
    match users w !! tgId with
    | Some u => (inr tt, set_users (<[tgId := f u]> (users w)) w)
    | None => (inr tt, w)
    end).

(** [update(values).eq("tg_id", tgId).select().single()]: no row is an error. *)
Definition update_single (tgId : string) (f : user_row -> user_row) : M user_row :=
  store_guard (fun w =>
    match users w !! tgId with
    | Some u => (inr (f u), set_users (<[tgId := f u]> (users w)) w)
    | None => (inl RowNotFound, w)
    end).

(** [update(values).eq("tg_id", tgId).<filter>.select().maybeSingle()]: the
    filter is evaluated on the row at the time of the write. *)
Definition update_maybe (tgId : string) (cond : user_row -> bool)
    (f : user_row -> user_row) : M (option user_row) :=
  store_guard (fun w =>
    match users w !! tgId with
    | Some u => if cond u then (inr (Some (f u)), set_users (<[tgId := f u]> (users w)) w)
                else (inr None, w)
    | None => (inr None, w)
    end).

(** [postTelegramApi]: an HTTP failure answers [ok = false]; a rejected
    [fetch] propagates. *)
Definition send (o : outbound) : M bool :=
  fun w => match transport w with
           | transport_up => (inr true, push_outbox o w)
           | transport_http_error => (inr false, w)
           | transport_unreachable => (inl TransportUnreachable, w)
           end.

(* ------------------------------------------------------------------ *)
(** ** User ledger (telegramUserService.ts) *)

Definition opt_eqb (a b : option string) : bool := bool_decide (a = b).

(** [updateTelegramNicknameIfChanged] *)
Definition updateTelegramNicknameIfChanged (tgId : string)
    (currentNickname incomingNickname : option string) : M unit :=
  match incomingNickname with
  | None => ret tt
  | Some _ =>
      if opt_eqb incomingNickname currentNickname then ret tt
      else update_where tgId (set_tg_nickname incomingNickname)
  end.

(** [ensureTelegramUser]: the result is the row and the [created] flag. *)
Definition ensureTelegramUser (tgId : string) (tgNickname : option string)
    (referredBy : option telegram_referred_by) : M (user_row * bool) :=
  let* existingUser := getTelegramUserByTgId tgId in
  match existingUser with
  | Some ex =>
      let* _u := updateTelegramNicknameIfChanged tgId (tg_nickname ex) tgNickname in
      let* refreshedUser := getTelegramUserByTgId tgId in
      match refreshedUser with
      | None => throw UserDisappeared
      | Some r => ret (r, false)
      end
  | None =>
      let* w := get_world in
      let trialUntill := addDays (today w) 3 in
      let* inserted := insert_user (new_user_row tgId tgNickname trialUntill referredBy) in
      match inserted with
      | inr row => ret (row, true)
      | inl _ =>
          let* concurrentUser := getTelegramUserByTgId tgId in
          match concurrentUser with
          | Some c => ret (c, false)
          | None => throw CreateUserFailed
          end
      end
  end.

(** [baseDate = currentUntil !== null && currentUntil > today ? currentUntil : today] *)
Definition extension_base (today : Z) (currentUntil : option Z) : Z :=
  match currentUntil with
  | Some d => if today <? d then d else today
  | None => today
  end.

(** [activateTelegramSubscription] *)
Definition activateTelegramSubscription (tgId : string) (tgNickname : option string)
    (months : Z) : M user_row :=
  if months <=? 0 then throw InvalidMonths else
  let* ensuredUser := ensureTelegramUser tgId tgNickname None in
  let currentUser := fst ensuredUser in
  let* w := get_world in
  let newUntil := addMonths (extension_base (today w) (subscription_untill currentUser)) months in
  update_single tgId (set_subscription true (Some live) (Some newUntil)).

(** [activateTelegramSubscriptionFromBalance] is a read of the user followed by
    one conditional write; the two halves are named so that interleavings of
    concurrent calls can be stated. *)
Record balance_plan := { planned_until : Z; planned_earned_money : Z }.

(** The read half: checks, [ensureTelegramUser], the computed values. *)
Definition fromBalancePrepare (tgId : string) (tgNickname : option string)
    (months amountUsd : Z) : M balance_plan :=
  if months <=? 0 then throw InvalidMonths else
  if amountUsd <=? 0 then throw InvalidAmountUsd else
  let* ensuredUser := ensureTelegramUser tgId tgNickname None in
  let currentUser := fst ensuredUser in
  let nextEarnedMoney := earned_money currentUser - amountUsd in
  if nextEarnedMoney <? 0 then throw InsufficientReferralBalance else
  let* w := get_world in
  let newUntil := addMonths (extension_base (today w) (subscription_untill currentUser)) months in
  ret {| planned_until := newUntil; planned_earned_money := nextEarnedMoney |}.

(** The write half: [update(...).eq("tg_id").gte("earned_money", amountUsd)]
    writing the values computed by the read half. *)
Definition fromBalanceCommit (tgId : string) (amountUsd : Z) (p : balance_plan) : M user_row :=
  let* data := update_maybe tgId (fun u => amountUsd <=? earned_money u)
      (fun u => set_earned_money (planned_earned_money p)
                  (set_subscription true (Some live) (Some (planned_until p)) u)) in
  match data with
  | None => throw InsufficientReferralBalance
  | Some row => ret row
  end.

Definition activateTelegramSubscriptionFromBalance (tgId : string)
    (tgNickname : option string) (months amountUsd : Z) : M user_row :=
  let* p := fromBalancePrepare tgId tgNickname months amountUsd in
  fromBalanceCommit tgId amountUsd p.

(** [Math.round(num / den)] for [den > 0]: half-up rounding. *)
Definition mathRound (num den : Z) : Z := (2 * num + den) / (2 * den).

Record referral_reward_result := {
  applied : bool;
  referrerTgId : option string;
  rewardAmountUsd : Z;
  rewardPercent : Z;
  referralPurchaseCount : Z;
}.

Definition not_applied (referrer : option string) : referral_reward_result :=
  {| applied := false; referrerTgId := referrer; rewardAmountUsd := 0;
     rewardPercent := 0; referralPurchaseCount := 0 |}.

(** [Array.prototype.findIndex] *)
Fixpoint findIndex {A} (p : A -> bool) (l : list A) : option nat :=
  match l with
  | [] => None
  | x :: l' => if p x then Some 0%nat else S <$> findIndex p l'
  end.

(** [a ?? b] *)
Definition coalesce {A} (a b : option A) : option A :=
  match a with Some _ => a | None => b end.

(** [applyReferralRewardForPurchase]; [purchaseAmountUsd] and the reward in
    cents, [rewardPercent] in percent (0.2 is 20). *)
Definition applyReferralRewardForPurchase (payerTgId : string)
    (payerTgNickname : option string) (purchaseAmountUsd : Z) : M referral_reward_result :=
  if purchaseAmountUsd <=? 0 then ret (not_applied None) else
  let* payerOpt := getTelegramUserByTgId payerTgId in
  match payerOpt with
  | None => ret (not_applied None)
  | Some payer =>
    match reffered_by payer with
    | None => ret (not_applied None)
    | Some rb =>
      let referrerId := ref_tgId rb in
      if bool_decide (referrerId = tg_id payer) then ret (not_applied (Some referrerId)) else
      let* referrerOpt := getTelegramUserByTgId referrerId in
      match referrerOpt with
      | None => ret (not_applied (Some referrerId))
      | Some referrer =>
        let nextReferralsData := refferals_data referrer in
        let existingEntryIndex :=
          findIndex (fun e => bool_decide (entry_tgId e = tg_id payer)) nextReferralsData in
        let currentPurchaseCount :=
          match existingEntryIndex with
          | Some i => default 0 (numberOfPurchase <$> nextReferralsData !! i)
          | None => 0
          end in
        let nextPurchaseCount := currentPurchaseCount + 1 in
        let rewardPct := if currentPurchaseCount =? 0 then 20 else 10 in
        let reward := mathRound (purchaseAmountUsd * rewardPct) 100 in
        let nextEntry :=
          {| entry_tgId := tg_id payer;
             entry_tgLogin := coalesce (tg_nickname payer) payerTgNickname;
             entry_tgNickname := coalesce payerTgNickname (tg_nickname payer);
             numberOfPurchase := nextPurchaseCount |} in
        let nextData :=
          match existingEntryIndex with
          | Some i => <[i := nextEntry]> nextReferralsData
          | None => nextReferralsData ++ [nextEntry]
          end in
        let nextEarnedMoney := earned_money referrer + reward in
        let* _u := update_where (tg_id referrer)
            (fun u => set_referrals (Z.of_nat (length nextData)) nextData
                        (set_earned_money nextEarnedMoney u)) in
        ret {| applied := true; referrerTgId := Some (tg_id referrer);
               rewardAmountUsd := reward; rewardPercent := rewardPct;
               referralPurchaseCount := nextPurchaseCount |}
      end
    end
  end.

(** [activateTelegramGift]: the activated gift and the row after the write. *)
Definition activateTelegramGift (tgId : string) (tgNickname : option string)
    (giftIndex : Z) : M (telegram_gift * user_row) :=
  if giftIndex <? 0 then throw InvalidGiftIndex else
  let* userOpt := getTelegramUserByTgId tgId in
  match userOpt with
  | None => throw UserNotFoundForGift
  | Some user =>
    match gifts user !! Z.to_nat giftIndex with
    | None => throw GiftNotFound
    | Some gift =>
      let* _r := activateTelegramSubscription tgId tgNickname (timeAmountGifted gift) in
      let nextGifts := delete (Z.to_nat giftIndex) (gifts user) in
      let* row := update_single tgId (set_gifts nextGifts) in
      ret (gift, row)
    end
  end.

(* ------------------------------------------------------------------ *)
(** ** Text, numbers and JSON *)

(** Texts are sequences of code units; the model covers the code units below
    256, one [ascii] each. *)
Definition chars := list ascii.

Definition code (c : ascii) : Z := Z.of_nat (Ascii.nat_of_ascii c).
Definition chr (n : Z) : ascii := Ascii.ascii_of_nat (Z.to_nat n).

Definition is_digit (c : ascii) : bool := (48 <=? code c) && (code c <=? 57).
Definition digit_value (c : ascii) : Z := code c - 48.

Fixpoint digits_of_pos (fuel : nat) (n : Z) (acc : chars) : chars :=
  match fuel with
  | O => acc
  | S f => if n <? 10 then chr (48 + n) :: acc
           else digits_of_pos f (n / 10) (chr (48 + n mod 10) :: acc)
  end.

(** Decimal digits of a non-negative integer. *)
Definition decimal (n : Z) : chars := digits_of_pos (S (Z.to_nat (Z.log2 (Z.max n 1)))) n [].

Fixpoint strip_zeros (fuel : nat) (n : Z) (z : Z) : Z * Z :=
  match fuel with
  | O => (n, z)
  | S f => if (n mod 10 =? 0) && (0 <? n) then strip_zeros f (n / 10) (z + 1) else (n, z)
  end.

(** [Number.prototype.toString()] on an integer value: plain digits below
    1e21, otherwise the shortest significand with an exponent ("1.5e+21"). *)
Definition js_int_to_string (n : Z) : chars :=
  let sign := if n <? 0 then ["-"%char] else [] in
  let a := Z.abs n in
  if a <? 10 ^ 21 then sign ++ decimal a
  else
    let '(m, z) := strip_zeros (Z.to_nat (Z.log2 a)) a 0 in
    let ds := decimal m in
    let e := Z.of_nat (length ds) - 1 + z in
    sign ++ take 1 ds ++ (match drop 1 ds with [] => [] | r => "."%char :: r end)
         ++ ["e"%char; "+"%char] ++ decimal e.

(** A JSON value; a number is [num / 10 ^ scale]. Object members keep their
    order and duplicates. *)
Inductive jv :=
  | JNull
  | JBool (b : bool)
  | JNum (num : Z) (scale : nat)
  | JStr (s : chars)
  | JArr (xs : list jv)
  | JObj (ms : list (chars * jv)).

(** Reading a property of a parsed object: [JSON.parse] keeps the last of
    duplicated keys. *)
Definition jlookup (k : chars) (ms : list (chars * jv)) : option jv :=
  foldl (fun acc kv => if bool_decide (kv.1 = k) then Some kv.2 else acc) None ms.

(** The double quote, code 34. *)
Definition dquote : ascii := Ascii.Ascii false true false false false true false false.

(** [JSON.stringify] quoting of a string. *)
Definition hexdig (n : Z) : ascii := if n <? 10 then chr (48 + n) else chr (87 + n).

Definition quote_char (c : ascii) : chars :=
  if Ascii.eqb c dquote then ["\"%char; dquote]
  else if Ascii.eqb c "\"%char then ["\"%char; "\"%char]
  else if code c =? 8 then ["\"%char; "b"%char]
  else if code c =? 9 then ["\"%char; "t"%char]
  else if code c =? 10 then ["\"%char; "n"%char]
  else if code c =? 12 then ["\"%char; "f"%char]
  else if code c =? 13 then ["\"%char; "r"%char]
  else if code c <? 32 then
    ["\"%char; "u"%char; "0"%char; "0"%char; hexdig (code c / 16); hexdig (code c mod 16)]
  else [c].

Definition quote (s : chars) : chars := dquote :: (s ≫= quote_char) ++ [dquote].

Definition comma_join (xs : list chars) : chars :=
  match xs with
  | [] => []
  | x :: r => x ++ (r ≫= fun y => ","%char :: y)
  end.

(** [JSON.stringify]; the numbers produced by the modelled code are integers. *)
Fixpoint stringify (v : jv) : chars :=
  match v with
  | JNull => String.list_ascii_of_string "null"
  | JBool true => String.list_ascii_of_string "true"
  | JBool false => String.list_ascii_of_string "false"
  | JNum n O => js_int_to_string n
  | JNum n (S k) => js_int_to_string n ++ ["e"%char; "-"%char] ++ decimal (Z.of_nat (S k))
  | JStr s => quote s
  | JArr xs => "["%char :: comma_join (map stringify xs) ++ ["]"%char]
  | JObj ms => "{"%char :: comma_join (map (fun kv => quote kv.1 ++ ":"%char :: stringify kv.2) ms)
               ++ ["}"%char]
  end.

Definition txt (s : string) : chars := String.list_ascii_of_string s.

(** [JSON.parse] *)
Definition is_json_ws (c : ascii) : bool :=
  (code c =? 32) || (code c =? 9) || (code c =? 10) || (code c =? 13).

Fixpoint skip_ws (s : chars) : chars :=
  match s with
  | c :: r => if is_json_ws c then skip_ws r else s
  | [] => []
  end.

Fixpoint take_digits (s : chars) : chars * chars :=
  match s with
  | c :: r => if is_digit c then let '(ds, r') := take_digits r in (c :: ds, r') else ([], s)
  | [] => ([], [])
  end.

Definition digits_value (ds : chars) : Z := foldl (fun acc c => acc * 10 + digit_value c) 0 ds.

Fixpoint strip_prefix (p s : chars) : option chars :=
  match p, s with
  | [], _ => Some s
  | c :: p', d :: s' => if Ascii.eqb c d then strip_prefix p' s' else None
  | _ :: _, [] => None
  end.

Definition hex_value (c : ascii) : option Z :=
  if is_digit c then Some (digit_value c)
  else if (97 <=? code c) && (code c <=? 102) then Some (code c - 87)
  else if (65 <=? code c) && (code c <=? 70) then Some (code c - 55)
  else None.

(** The characters of a string literal up to its closing quote. *)
Fixpoint parse_string_body (s : chars) (acc : chars) : option (chars * chars) :=
  match s with
  | [] => None
  | c :: r =>
    if Ascii.eqb c dquote then Some (rev acc, r)
    else if Ascii.eqb c "\"%char then
      match r with
      | [] => None
      | e :: r' =>
        if Ascii.eqb e dquote then parse_string_body r' (e :: acc)
        else if Ascii.eqb e "\"%char then parse_string_body r' (e :: acc)
        else if Ascii.eqb e "/"%char then parse_string_body r' (e :: acc)
        else if Ascii.eqb e "b"%char then parse_string_body r' (chr 8 :: acc)
        else if Ascii.eqb e "f"%char then parse_string_body r' (chr 12 :: acc)
        else if Ascii.eqb e "n"%char then parse_string_body r' (chr 10 :: acc)
        else if Ascii.eqb e "r"%char then parse_string_body r' (chr 13 :: acc)
        else if Ascii.eqb e "t"%char then parse_string_body r' (chr 9 :: acc)
        else if Ascii.eqb e "u"%char then
          match r' with
          | h1 :: h2 :: h3 :: h4 :: r'' =>
            match hex_value h1, hex_value h2, hex_value h3, hex_value h4 with
            | Some a, Some b, Some c', Some d =>
              let u := ((a * 16 + b) * 16 + c') * 16 + d in
              if u <? 256 then parse_string_body r'' (chr u :: acc) else None
            | _, _, _, _ => None
            end
          | _ => None
          end
        else None
      end
    else if code c <? 32 then None
    else parse_string_body r (c :: acc)
  end.

(** A JSON number: minus sign, integer part without leading zero, optional
    fraction, optional exponent. *)
Definition parse_number (s : chars) : option (jv * chars) :=
  let '(neg, s1) := match s with
                    | c :: r => if Ascii.eqb c "-"%char then (true, r) else (false, s)
                    | [] => (false, s)
                    end in
  let '(intd, s2) := take_digits s1 in
  match intd with
  | [] => None
  | d :: rest =>
    if Ascii.eqb d "0"%char && negb (bool_decide (rest = [])) then None else
    let frac :=
      match s2 with
      | c :: r => if Ascii.eqb c "."%char then
                    let '(fd, r') := take_digits r in
                    match fd with [] => None | _ => Some (fd, r') end
                  else Some ([], s2)
      | [] => Some ([], s2)
      end in
    match frac with
    | None => None
    | Some (fd, s3) =>
      let expo :=
        match s3 with
        | c :: r =>
          if Ascii.eqb c "e"%char || Ascii.eqb c "E"%char then
            let '(eneg, r1) := match r with
                               | x :: r' => if Ascii.eqb x "-"%char then (true, r')
                                            else if Ascii.eqb x "+"%char then (false, r')
                                            else (false, r)
                               | [] => (false, r)
                               end in
            let '(ed, r2) := take_digits r1 in
            match ed with
            | [] => None
            | _ => Some (if eneg then - digits_value ed else digits_value ed, r2)
            end
          else Some (0, s3)
        | [] => Some (0, s3)
        end in
      match expo with
      | None => None
      | Some (e, s4) =>
        let mant := digits_value (intd ++ fd) in
        let scale := Z.of_nat (length fd) - e in
        let num := if scale <=? 0 then mant * 10 ^ (- scale) else mant in
        Some (JNum (if neg then - num else num) (Z.to_nat scale), s4)
      end
    end
  end.

Fixpoint parse_value (fuel : nat) (s : chars) : option (jv * chars) :=
  match fuel with
  | O => None
  | S f =>
    match skip_ws s with
    | [] => None
    | c :: r =>
      if Ascii.eqb c "{"%char then parse_members f (skip_ws r) []
      else if Ascii.eqb c "["%char then parse_elems f (skip_ws r) []
      else if Ascii.eqb c dquote then
        match parse_string_body r [] with
        | Some (str, r') => Some (JStr str, r')
        | None => None
        end
      else match strip_prefix (txt "true") (c :: r) with
      | Some r' => Some (JBool true, r')
      | None => match strip_prefix (txt "false") (c :: r) with
      | Some r' => Some (JBool false, r')
      | None => match strip_prefix (txt "null") (c :: r) with
      | Some r' => Some (JNull, r')
      | None => parse_number (c :: r)
      end end end
    end
  end
with parse_members (fuel : nat) (s : chars) (acc : list (chars * jv)) : option (jv * chars) :=
  match fuel with
  | O => None
  | S f =>
    match s with
    | [] => None
    | c :: r =>
      if Ascii.eqb c "}"%char && bool_decide (acc = []) then Some (JObj [], r)
      else if Ascii.eqb c dquote then
        match parse_string_body r [] with
        | None => None
        | Some (k, r1) =>
          match skip_ws r1 with
          | c2 :: r2 =>
            if Ascii.eqb c2 ":"%char then
              match parse_value f r2 with
              | None => None
              | Some (v, r3) =>
                match skip_ws r3 with
                | c3 :: r4 =>
                  if Ascii.eqb c3 ","%char then parse_members f (skip_ws r4) (acc ++ [(k, v)])
                  else if Ascii.eqb c3 "}"%char then Some (JObj (acc ++ [(k, v)]), r4)
                  else None
                | [] => None
                end
              end
            else None
          | [] => None
          end
        end
      else None
    end
  end
with parse_elems (fuel : nat) (s : chars) (acc : list jv) : option (jv * chars) :=
  match fuel with
  | O => None
  | S f =>
    match s with
    | c :: r =>
      if Ascii.eqb c "]"%char && bool_decide (acc = []) then Some (JArr [], r)
      else
        match parse_value f s with
        | None => None
        | Some (v, r3) =>
          match skip_ws r3 with
          | c3 :: r4 =>
            if Ascii.eqb c3 ","%char then parse_elems f (skip_ws r4) (acc ++ [v])
            else if Ascii.eqb c3 "]"%char then Some (JArr (acc ++ [v]), r4)
            else None
          | [] => None
          end
        end
    | [] => None
    end
  end.

(** Every nested call consumes at least one character, so the length of the
    text bounds the depth. *)
Definition JSON_parse (s : chars) : option jv :=
  match parse_value (S (length s)) s with
  | Some (v, rest) => if bool_decide (skip_ws rest = []) then Some v else None
  | None => None
  end.

(* ------------------------------------------------------------------ *)
(** ** Invoice payload (telegram-callback/index.ts) *)

Inductive invoice_payload :=
  | SubscriptionPayload (months : Z) (tgId : chars)
  | GiftPayload (months : Z) (tgId : chars) (recipientTgId : chars).

(** [subscriptionPlanMonthsSchema = z.number().int().positive()] *)
Definition subscriptionPlanMonthsSchema (v : option jv) : option Z :=
  match v with
  | Some (JNum n k) =>
    let d := 10 ^ Z.of_nat k in
    if (n mod d =? 0) && (0 <? n) then Some (n / d) else None
  | _ => None
  end.

(** [/^[1-9]\d{0,19}$/u] *)
Definition is_tg_id_text (s : chars) : bool :=
  match s with
  | c :: r => (49 <=? code c) && (code c <=? 57) && forallb is_digit r && (length r <=? 19)%nat
  | [] => false
  end.

(** [tgIdSchema = z.string().regex(/^[1-9]\d{0,19}$/u)] *)
Definition tgIdSchema (v : option jv) : option chars :=
  match v with
  | Some (JStr s) => if is_tg_id_text s then Some s else None
  | _ => None
  end.

(** [invoicePayloadSchema]: a discriminated union on [action]. *)
Definition invoicePayloadSchema (v : jv) : option invoice_payload :=
  match v with
  | JObj ms =>
    match jlookup (txt "action") ms with
    | Some (JStr a) =>
      if bool_decide (a = txt "subscription") then
        m ← subscriptionPlanMonthsSchema (jlookup (txt "months") ms);
        t ← tgIdSchema (jlookup (txt "tgId") ms);
        Some (SubscriptionPayload m t)
      else if bool_decide (a = txt "gift") then
        m ← subscriptionPlanMonthsSchema (jlookup (txt "months") ms);
        t ← tgIdSchema (jlookup (txt "tgId") ms);
        r ← tgIdSchema (jlookup (txt "recipientTgId") ms);
        Some (GiftPayload m t r)
      else None
    | _ => None
    end
  | _ => None
  end.

(** [buildSubscriptionInvoicePayload(tgId, months)] *)
Definition buildSubscriptionInvoicePayload (tgId months : Z) : chars :=
  stringify (JObj [(txt "action", JStr (txt "subscription"));
                   (txt "months", JNum months 0);
                   (txt "tgId", JStr (js_int_to_string tgId))]).

(** [buildGiftInvoicePayload(tgId, recipientTgId, months)] *)
Definition buildGiftInvoicePayload (tgId : Z) (recipientTgId : chars) (months : Z) : chars :=
  stringify (JObj [(txt "action", JStr (txt "gift"));
                   (txt "months", JNum months 0);
                   (txt "tgId", JStr (js_int_to_string tgId));
                   (txt "recipientTgId", JStr recipientTgId)]).

(** [parseSubscriptionInvoicePayload]: [parseJsonSafe] then the schema. *)
Definition parseSubscriptionInvoicePayload (payload : chars) : option invoice_payload :=
  match JSON_parse payload with
  | None => None
  | Some parsedJson => invoicePayloadSchema parsedJson
  end.

Definition payload_months (p : invoice_payload) : Z :=
  match p with SubscriptionPayload m _ => m | GiftPayload m _ _ => m end.

Definition payload_tgId (p : invoice_payload) : chars :=
  match p with SubscriptionPayload _ t => t | GiftPayload _ t _ => t end.

(* ------------------------------------------------------------------ *)
(** ** Command parser (telegram-command/index.ts) *)

(** [\s] and the characters [String.prototype.trim] removes, below 256. *)
Definition is_js_space (c : ascii) : bool :=
  let n := code c in
  ((9 <=? n) && (n <=? 13)) || (n =? 32) || (n =? 160).

Definition is_upper (c : ascii) : bool := (65 <=? code c) && (code c <=? 90).
Definition is_lower (c : ascii) : bool := (97 <=? code c) && (code c <=? 122).

(** [\w] (the word characters of [\b]). *)
Definition is_word (c : ascii) : bool :=
  is_upper c || is_lower c || is_digit c || Ascii.eqb c "_"%char.

(** [String.prototype.toLowerCase] below 256. *)
Definition to_lower_char (c : ascii) : ascii :=
  let n := code c in
  if is_upper c || ((192 <=? n) && (n <=? 222) && negb (n =? 215)) then chr (n + 32) else c.

Definition toLowerCase (s : chars) : chars := map to_lower_char s.

Fixpoint drop_spaces (s : chars) : chars :=
  match s with
  | c :: r => if is_js_space c then drop_spaces r else s
  | [] => []
  end.

(** [String.prototype.trim] *)
Definition trim (s : chars) : chars := rev (drop_spaces (rev (drop_spaces s))).

(** [split(/\s+/u).filter((token) => token.length > 0)] *)
Fixpoint split_tokens (s : chars) (cur : chars) : list chars :=
  match s with
  | [] => if bool_decide (cur = []) then [] else [rev cur]
  | c :: r =>
    if is_js_space c then (if bool_decide (cur = []) then [] else [rev cur]) ++ split_tokens r []
    else split_tokens r (c :: cur)
  end.

Fixpoint take_while (p : ascii -> bool) (s : chars) : chars :=
  match s with
  | c :: r => if p c then c :: take_while p r else []
  | [] => []
  end.

(** [/^\/([a-z_]+)(?:@([a-z0-9_]{3,}))?$/iu.exec(firstToken)]: the two groups. *)
Definition command_match (tok : chars) : option (chars * option chars) :=
  match tok with
  | c :: r =>
    if Ascii.eqb c "/"%char then
      let name := take_while (fun x => is_upper x || is_lower x || Ascii.eqb x "_"%char) r in
      let rest := drop (length name) r in
      match name with
      | [] => None
      | _ =>
        match rest with
        | [] => Some (name, None)
        | a :: mention =>
          if Ascii.eqb a "@"%char
             && forallb (fun x => is_upper x || is_lower x || is_digit x || Ascii.eqb x "_"%char) mention
             && (3 <=? length mention)%nat
          then Some (name, Some mention) else None
        end
      end
    else None
  | [] => None
  end.

(** [/^ref_[1-9]\d{0,19}$/u] *)
Definition is_ref_argument (s : chars) : bool :=
  match strip_prefix (txt "ref_") s with
  | Some r => is_tg_id_text r
  | None => false
  end.

Fixpoint digit_run (s : chars) : nat * chars :=
  match s with
  | c :: r => if is_digit c then let '(n, r') := digit_run r in (S n, r') else (O, s)
  | [] => (O, [])
  end.

(** [\d+\b] at the start of [s] (with backtracking: the whole digit run,
    followed by a non-word character or the end) and at least [k] digits. *)
Definition digits_then_boundary (k : nat) (s : chars) : bool :=
  let '(n, r) := digit_run s in
  (k <=? n)%nat && (1 <=? n)%nat &&
  match r with c :: _ => negb (is_word c) | [] => true end.

Definition id_keys : list chars :=
  map txt ["id"; "user_id"; "chat_id"; "admin_id"; "target_id"; "uid"]%string.

(** [(?:id|user_id|...)\s*[:=]\s*\d+\b] at the start of [s] (case-insensitive). *)
Definition key_assignment_at (s : chars) : bool :=
  existsb (fun key =>
    match strip_prefix key (toLowerCase (take (length key) s)) with
    | Some _ =>
      match drop_spaces (drop (length key) s) with
      | c :: r =>
        (Ascii.eqb c ":"%char || Ascii.eqb c "="%char)
        && digits_then_boundary 1 (drop_spaces r)
      | [] => false
      end
    | None => false
    end) id_keys.

(** The three alternatives of [suspiciousCommandPattern] at a position
    preceded by [prev] ([None] at the start of the text). *)
Definition suspicious_at (prev : option ascii) (s : chars) : bool :=
  let boundary_before := match prev with Some p => negb (is_word p) | None => true end in
  (boundary_before && key_assignment_at s)
  || bool_decide (is_Some (strip_prefix (txt "tg://user?id=") (toLowerCase (take 13 s))))
  || (boundary_before && digits_then_boundary 8 s).

Fixpoint suspicious_from (prev : option ascii) (s : chars) : bool :=
  match s with
  | [] => suspicious_at prev []
  | c :: r => suspicious_at prev s || suspicious_from (Some c) r
  end.

(** [suspiciousCommandPattern.test(text)] with
    [/\b(?:id|user_id|chat_id|admin_id|target_id|uid)\s*[:=]\s*\d+\b|tg:\/\/user\?id=|\b\d{8,}\b/iu] *)
Definition suspiciousCommandPattern_test (s : chars) : bool := suspicious_from None s.

Record ParsedTelegramCommand := {
  command : option chars;
  argument : option chars;
  isSuspicious : bool;
  reason : option string;
}.

Definition verdict (c a : option chars) (susp : bool) (r : option string) : ParsedTelegramCommand :=
  {| command := c; argument := a; isSuspicious := susp; reason := r |}.

(** [getTelegramCommand(text, botUsername)] *)
Definition getTelegramCommand (text botUsername : option chars) : ParsedTelegramCommand :=
  match text with
  | None => verdict None None false None
  | Some t =>
    let normalizedText := trim t in
    match normalizedText with
    | c :: _ =>
      if negb (Ascii.eqb c "/"%char) then verdict None None false None
      else if (128 <? length normalizedText)%nat then
        verdict None None true (Some "Potential ID injection payload detected.")
      else
        let tokens := split_tokens normalizedText [] in
        let firstToken := default [] (head tokens) in
        match command_match firstToken with
        | None => verdict None None true (Some "Malformed Telegram command.")
        | Some (name, mention) =>
          if (2 <? length tokens)%nat then verdict None None true (Some "Too many command arguments.")
          else
            let botMention := toLowerCase (default [] mention) in
            let expectedBotUsername :=
              toLowerCase (let b := default [] botUsername in
                           match b with a :: r => if Ascii.eqb a "@"%char then r else b | [] => [] end) in
            if negb (bool_decide (botMention = [])) && negb (bool_decide (expectedBotUsername = []))
               && negb (bool_decide (botMention = expectedBotUsername))
            then verdict None None false (Some "Command is addressed to a different bot.")
            else
              let normalizedCommand := "/"%char :: toLowerCase name in
              let arg := if (length tokens =? 2)%nat then tokens !! 1%nat else None in
              match arg with
              | Some a =>
                if negb (bool_decide (normalizedCommand = txt "/start")) then
                  verdict None None true (Some "Command arguments are blocked for security.")
                else if negb (is_ref_argument a) then
                  verdict None None true (Some "Unsupported /start payload.")
                else verdict (Some normalizedCommand) arg false None
              | None =>
                if suspiciousCommandPattern_test normalizedText then
                  verdict None None true (Some "Potential ID injection payload detected.")
                else verdict (Some normalizedCommand) None false None
              end
        end
    | [] => verdict None None false None
    end
  end.

(** [reason.includes(needle)] *)
Fixpoint contains (needle hay : chars) : bool :=
  match hay with
  | [] => bool_decide (needle = [])
  | _ :: r => bool_decide (is_Some (strip_prefix needle hay)) || contains needle r
  end.

(* ------------------------------------------------------------------ *)
(** ** Catalog reads (subscriptionPricingService.ts, vpsCatalogService.ts) *)

(** [getSubscriptionPriceByMonths]: [eq("months", months).maybeSingle()]
    (several rows are an error), then [parseSubscriptionPriceRow]. *)
Definition getSubscriptionPriceByMonths (m : Z) : M (option subscription_price) :=
  store_guard (fun w =>
    match filter (fun p => months p = m) (subscription_prices w) with
    | [] => (inr None, w)
    | [p] => if usdt p <? 0 then (inl InvalidUsdt, w) else (inr (Some p), w)
    | _ => (inl StoreError, w)
    end).

(** [listUniqueVpsCountries]: (country, emoji) pairs, first occurrence kept;
    rows come in the order the store returns them. *)
Definition listUniqueVpsCountries : M (list (string * string)) :=
  store_guard (fun w =>
    (inr (foldl (fun acc row =>
                   let k := (country row, country_emoji row) in
                   if bool_decide (k ∈ acc) then acc else acc ++ [k]) [] (vps w)), w)).

(** [listVpsByCountry]: the uuids of the servers of a country. *)
Definition listVpsByCountry (c : string) : M (list string) :=
  store_guard (fun w => (inr (internal_uuid <$> filter (fun row => country row = c) (vps w)), w)).

(** [getVpsConfigByInternalUuid]: [maybeSingle] on the uuid. *)
Definition getVpsConfigByInternalUuid (uuid : string) : M (option (list string)) :=
  store_guard (fun w =>
    match filter (fun row => internal_uuid row = uuid) (vps w) with
    | [] => (inr None, w)
    | [row] => (inr (Some (config_list row)), w)
    | _ => (inl StoreError, w)
    end).

(* ------------------------------------------------------------------ *)
(** ** Webhook dispatcher (telegramWebhookController.ts) *)

(** What the handler does with the HTTP request: [res.status(s).json(body)].
    An error escaping the handler ([inl] of the monad) leaves the request
    without this answer. *)
Inductive http_response := Respond (status : Z) (body : jv).

Definition jtrue : jv := JBool true.

Definition reply (fields : list (string * jv)) : M http_response :=
  ret (Respond 200 (JObj ((fun kv => (txt kv.1, kv.2)) <$> (("ok"%string, jtrue) :: fields)))).

(** [String(id)] of a numeric Telegram id. *)
Definition String_of_id (n : Z) : string := String.string_of_list_ascii (js_int_to_string n).

(** [hasAccessToServers] *)
Definition hasAccessToServers (st : option sub_status) (active : bool) : bool :=
  active || bool_decide (st = Some live) || bool_decide (st = Some ending).

Definition user_has_servers_access (telegramUser : option user_row) : bool :=
  match telegramUser with
  | Some u => hasAccessToServers (subscription_status u) (subscription_active u)
  | None => false
  end.

Record pre_checkout_query := {
  pcq_id : string;
  pcq_from_id : Z;
  pcq_currency : chars;
  pcq_total_amount : Z;
  pcq_invoice_payload : chars;
}.

(** Branch 1, [pre_checkout_query]. *)
Definition preCheckoutBranch (q : pre_checkout_query) : M http_response :=
  let* isValidPayload :=
    match parseSubscriptionInvoicePayload (pcq_invoice_payload q) with
    | Some invoicePayload =>
      if bool_decide (pcq_currency q = txt "XTR")
         && bool_decide (payload_tgId invoicePayload = js_int_to_string (pcq_from_id q)) then
        catch
          (let* expectedPrice := getSubscriptionPriceByMonths (payload_months invoicePayload) in
           ret (match expectedPrice with
                | Some e => pcq_total_amount q =? stars e
                | None => false
                end))
          (fun _ => ret false)
      else ret false
    | None => ret false
    end in
  let* _answered := send (AnswerPreCheckout (pcq_id q) isValidPayload) in
  reply [("processed", jtrue); ("preCheckoutValidated", JBool isValidPayload)].

Record payment_message := {
  pm_chat_id : Z;
  pm_from : option (Z * option string);
  pm_currency : chars;
  pm_total_amount : Z;
  pm_invoice_payload : chars;
}.

(** Branch 3, a message with [successful_payment]. *)
Definition successfulPaymentBranch (m : payment_message) : M http_response :=
  match pm_from m with
  | None => reply [("processed", JBool false)]
  | Some (fromId, username) =>
    match parseSubscriptionInvoicePayload (pm_invoice_payload m) with
    | None =>
      let* _s := send (PaymentError (pm_chat_id m)) in
      reply [("processed", jtrue); ("paymentApplied", JBool false)]
    | Some paymentPayload =>
      let* validatedPrice :=
        if bool_decide (pm_currency m = txt "XTR")
           && bool_decide (payload_tgId paymentPayload = js_int_to_string fromId) then
          catch
            (let* expectedPrice := getSubscriptionPriceByMonths (payload_months paymentPayload) in
             ret (match expectedPrice with
                  | Some e => if pm_total_amount m =? stars e then Some e else None
                  | None => None
                  end))
            (fun _ => ret None)
        else ret None in
      match validatedPrice with
      | None =>
        let* _s := send (PaymentError (pm_chat_id m)) in
        reply [("processed", jtrue); ("paymentApplied", JBool false)]
      | Some price =>
        catch
          (let* updatedUser :=
             activateTelegramSubscription (String_of_id fromId) username
               (payload_months paymentPayload) in
           let* _r := catch (let* _a := applyReferralRewardForPurchase (String_of_id fromId)
                                         username (usdt price) in ret tt)
                            (fun _ => ret tt) in
           let* _s := send (PaymentSuccess (pm_chat_id m) (payload_months paymentPayload)
                              (subscription_untill updatedUser)) in
           reply [("processed", jtrue); ("paymentApplied", jtrue)])
          (fun _ => reply [("processed", jtrue); ("paymentApplied", JBool false)])
      end
    end
  end.

Definition callback_reply (sent : bool) : M http_response :=
  reply [("processed", jtrue); ("callbackHandled", jtrue); ("sent", JBool sent)].

(** Callback branch [menuKey === "countries"]: the whole body is inside
    [try]. *)
Definition countriesMenuBranch (fromId chatId : Z) : M http_response :=
  catch
    (let* telegramUser := getTelegramUserByTgId (String_of_id fromId) in
     if negb (user_has_servers_access telegramUser) then
       let* sent := send (SubscriptionRequiredForServers chatId) in
       callback_reply sent
     else
       let* countries := listUniqueVpsCountries in
       let* sent := match countries with
                    | [] => send (CountriesEmpty chatId)
                    | _ => send (CountriesList chatId countries)
                    end in
       callback_reply sent)
    (fun _ => callback_reply false).

Inductive countries_action := CountryAction (c : string) | VpsAction (uuid : string).

(** The messages of the [vps] sub-branch, [sent] cleared by any failed send. *)
Fixpoint send_config_urls (chatId : Z) (urls : list string) (sent : bool) : M bool :=
  match urls with
  | [] => ret sent
  | u :: r =>
    let* ok := send (ConfigUrl chatId u) in
    send_config_urls chatId r (sent && ok)
  end.

(** Callback branch [countriesAction !== null]: the user lookup and the
    access gate come before the [try] of the sub-branches. *)
Definition countriesActionBranch (fromId chatId : Z) (a : countries_action) : M http_response :=
  let* telegramUser := getTelegramUserByTgId (String_of_id fromId) in
  if negb (user_has_servers_access telegramUser) then
    let* sent := send (SubscriptionRequiredForServers chatId) in
    callback_reply sent
  else
    match a with
    | CountryAction c =>
      catch
        (let* vpsList := listVpsByCountry c in
         let* sent := match vpsList with
                      | [] => send (VpsListEmpty chatId c)
                      | _ => send (VpsList chatId c vpsList)
                      end in
         callback_reply sent)
        (fun _ => callback_reply false)
    | VpsAction uuid =>
      catch
        (let* vpsConfig := getVpsConfigByInternalUuid uuid in
         let* sent :=
           match vpsConfig with
           | None => send (ConfigNotFound chatId)
           | Some [] => send (ConfigListEmpty chatId)
           | Some urls =>
             let* introOk := send (ConfigIntro chatId) in
             send_config_urls chatId urls introOk
           end in
         callback_reply sent)
        (fun _ => callback_reply false)
    end.


(* ------------------------------------------------------------------ *)
(** ** Menu status (telegramUserService.ts, telegramMenuService.ts) *)

(** [TelegramSubscriptionStatus] *)
Inductive TelegramSubscriptionStatus :=
  | status_active | status_trial | status_expired | status_unknown.

(** [mapTelegramUserToMenuSubscriptionStatus] *)
Definition mapTelegramUserToMenuSubscriptionStatus (user : user_row) : TelegramSubscriptionStatus :=
  if bool_decide (subscription_status user = Some live) then status_active
  else if bool_decide (subscription_status user = Some ending) then status_trial
  else if subscription_active user then status_active
  else status_expired.

(* ------------------------------------------------------------------ *)
(** ** Webhook secret (telegramSecretMiddleware.ts) *)

(** The middleware answers the request itself or calls [next()]. *)
Inductive middleware_outcome := MiddlewareRespond (r : http_response) | MiddlewareNext.

(** [requireTelegramSecret]: [expectedSecret] is [process.env.TG_SECRET], the
    two others are [req.header("x-telegram-secret")] and
    [req.header("x-telegram-bot-api-secret-token")]. *)
Definition requireTelegramSecret (expectedSecret : option chars)
    (xTelegramSecret xTelegramBotApiSecretToken : option chars) : middleware_outcome :=
  match expectedSecret with
  | None | Some [] =>
    MiddlewareRespond (Respond 500 (JObj [(txt "ok", JBool false);
                                          (txt "message", JStr (txt "TG_SECRET is not configured."))]))
  | Some e =>
    let providedSecret := coalesce xTelegramSecret xTelegramBotApiSecretToken in
    if negb (bool_decide (providedSecret = Some e)) then
      MiddlewareRespond (Respond 401 (JObj [(txt "ok", JBool false);
                                            (txt "message", JStr (txt "Unauthorized: invalid Telegram secret."))]))
    else MiddlewareNext
  end.

(* ------------------------------------------------------------------ *)
(** ** User sync of the [/start] and [/menu] commands (message branch) *)

(** [startReferralArgument.replace(/^ref_/u, "")] *)
Definition strip_ref (a : chars) : chars :=
  match strip_prefix (txt "ref_") a with Some r => r | None => a end.

(** The [referredBy] of the message branch: a lookup of the referrer named
    by the [/start] argument, unless it is the sender; a failed lookup is
    caught and leaves [referredBy] null. [referDate] is today. *)
Definition resolveReferredBy (fromId : Z) (startReferralArgument : option chars)
    : M (option telegram_referred_by) :=
  match startReferralArgument with
  | None => ret None
  | Some a =>
    let referredByTgId := strip_ref a in
    if bool_decide (referredByTgId = js_int_to_string fromId) then ret None
    else
      catch
        (let* referrerUser := getTelegramUserByTgId (String.string_of_list_ascii referredByTgId) in
         let* w := get_world in
         match referrerUser with
         | Some r => ret (Some {| ref_tgId := tg_id r; ref_tgNickname := tg_nickname r;
                                  referDate := today w |})
         | None => ret None
         end)
        (fun _ => ret None)
  end.

(** The message branch from the parsed command to the synced user, for a
    handled command ([/start] or [/menu]) with a sender: [None] is the
    answer "Failed to sync user profile.". *)
Definition messageUserSync (parsedCommand : ParsedTelegramCommand) (fromId : Z)
    (username : option string) : M (option (user_row * bool)) :=
  let startReferralArgument :=
    if bool_decide (command parsedCommand = Some (txt "/start")) then argument parsedCommand
    else None in
  let* referredBy := resolveReferredBy fromId startReferralArgument in
  catch
    (let* userSyncResult := ensureTelegramUser (String_of_id fromId) username referredBy in
     ret (Some userSyncResult))
    (fun _ => ret None).

(* ------------------------------------------------------------------ *)
(** ** Callback data parsers (telegram-callback/index.ts) *)

(** [Number.parseInt(s, 10)]: leading white space, an optional sign and the
    longest run of decimal digits, the rest ignored; [None] is [NaN]. The
    value is the exact integer: the [number] of the source agrees with it
    up to [2 ^ 53]. *)
Definition parseInt10 (s : chars) : option Z :=
  let s1 := drop_spaces s in
  let '(sgn, s2) :=
    match s1 with
    | c :: r => if Ascii.eqb c "-"%char then (-1, r)
                else if Ascii.eqb c "+"%char then (1, r) else (1, s1)
    | [] => (1, [])
    end in
  match take_digits s2 with
  | ([], _) => None
  | (ds, _) => Some (sgn * digits_value ds)
  end.

(** A [number] handed to a schema. *)
Definition js_number (n : Z) : jv := JNum n 0.

(** [giftIndexSchema = z.number().int().nonnegative()] *)
Definition giftIndexSchema (v : option jv) : option Z :=
  match v with
  | Some (JNum n k) =>
    let d := 10 ^ Z.of_nat k in
    if (n mod d =? 0) && (0 <=? n) then Some (n / d) else None
  | _ => None
  end.

Inductive purchase_method := tg_stars | tbd_1 | tbd_2.

(** [purchaseMethodSchema = z.enum(["tg_stars", "tbd_1", "tbd_2"])] *)
Definition purchaseMethodSchema (s : chars) : option purchase_method :=
  if bool_decide (s = txt "tg_stars") then Some tg_stars
  else if bool_decide (s = txt "tbd_1") then Some tbd_1
  else if bool_decide (s = txt "tbd_2") then Some tbd_2
  else None.

Definition purchase_method_text (m : purchase_method) : chars :=
  match m with tg_stars => txt "tg_stars" | tbd_1 => txt "tbd_1" | tbd_2 => txt "tbd_2" end.

Inductive PurchaseAction :=
  | PurchaseOpen
  | PurchaseMethod (method : purchase_method)
  | PurchasePlan (months : Z).

(** [getPurchaseActionFromCallbackData]; [startsWith] and [slice] are one
    [strip_prefix]. *)
Definition getPurchaseActionFromCallbackData (data : option chars) : option PurchaseAction :=
  match data with
  | None => None
  | Some d =>
    if bool_decide (d = txt "buy:open") then Some PurchaseOpen else
    match strip_prefix (txt "buy:method:") d with
    | Some methodRaw => PurchaseMethod <$> purchaseMethodSchema methodRaw
    | None =>
      match strip_prefix (txt "buy:plan:") d with
      | Some monthsText =>
        PurchasePlan <$> subscriptionPlanMonthsSchema (js_number <$> parseInt10 monthsText)
      | None => None
      end
    end
  end.

Inductive ReferalsAction := ReferalsProlong | ReferalsBalancePlan (months : Z).

(** [getReferalsActionFromCallbackData] *)
Definition getReferalsActionFromCallbackData (data : option chars) : option ReferalsAction :=
  match data with
  | None => None
  | Some d =>
    let parsedAction :=
      match strip_prefix (txt "referals:") d with
      | Some rawAction =>
        if bool_decide (rawAction = txt "prolong") then Some ReferalsProlong else None
      | None => None
      end in
    match parsedAction with
    | Some a => Some a
    | None =>
      match strip_prefix (txt "referals:balance_plan:") d with
      | Some monthsText =>
        ReferalsBalancePlan <$> subscriptionPlanMonthsSchema (js_number <$> parseInt10 monthsText)
      | None => None
      end
    end
  end.

(** [String.prototype.split(":")]; [cur] is the current part, reversed. *)
Fixpoint split_colon (s : chars) (cur : chars) : list chars :=
  match s with
  | [] => [rev cur]
  | c :: r => if Ascii.eqb c ":"%char then rev cur :: split_colon r [] else split_colon r (c :: cur)
  end.

Inductive GiftsAction :=
  | GiftsMy | GiftsGive | GiftsPromo
  | GiftsView (giftIndex : Z)
  | GiftsActivate (giftIndex : Z)
  | GiftsMethod (method : purchase_method) (recipientTgId : chars)
  | GiftsPlan (months : Z) (recipientTgId : chars).

(** [getGiftsActionFromCallbackData] *)
Definition getGiftsActionFromCallbackData (data : option chars) : option GiftsAction :=
  match data with
  | None => None
  | Some d =>
    if bool_decide (d = txt "gift:my") then Some GiftsMy
    else if bool_decide (d = txt "gift:give") then Some GiftsGive
    else if bool_decide (d = txt "gift:promo") then Some GiftsPromo
    else
    match strip_prefix (txt "gift:view:") d with
    | Some rest => GiftsView <$> giftIndexSchema (js_number <$> parseInt10 rest)
    | None =>
    match strip_prefix (txt "gift:activate:") d with
    | Some rest => GiftsActivate <$> giftIndexSchema (js_number <$> parseInt10 rest)
    | None =>
    match strip_prefix (txt "gift:method:") d with
    | Some _ =>
      match split_colon d [] with
      | [_; _; p2; p3] =>
        match purchaseMethodSchema p2, tgIdSchema (Some (JStr p3)) with
        | Some m, Some r => Some (GiftsMethod m r)
        | _, _ => None
        end
      | _ => None
      end
    | None =>
    match strip_prefix (txt "gift:plan:") d with
    | Some _ =>
      match split_colon d [] with
      | [_; _; p2; p3] =>
        match subscriptionPlanMonthsSchema (js_number <$> parseInt10 p2),
              tgIdSchema (Some (JStr p3)) with
        | Some m, Some r => Some (GiftsPlan m r)
        | _, _ => None
        end
      | _ => None
      end
    | None => None
    end end end end
  end.

(* ------------------------------------------------------------------ *)
(** ** Tracked chat messages (telegramBotService.ts) *)

(** [trackedMessageIdsByChat: Map<number, number[]>] *)
Abbreviation tracker := (gmap Z (list Z)).

Definition maxTrackedMessagesPerChat : nat := 500.

(** [trackMessageId]: the array is pushed to and spliced in place, then set. *)
Definition trackMessageId (chatId messageId : Z) (t : tracker) : tracker :=
  let trackedIds := default [] (t !! chatId) in
  if bool_decide (messageId ∈ trackedIds) then t
  else
    let pushed := trackedIds ++ [messageId] in
    let kept := if (maxTrackedMessagesPerChat <? length pushed)%nat
                then drop (length pushed - maxTrackedMessagesPerChat) pushed else pushed in
    <[chatId := kept]> t.

(** [untrackMessageId] *)
Definition untrackMessageId (chatId messageId : Z) (t : tracker) : tracker :=
  match t !! chatId with
  | None => t
  | Some trackedIds =>
    let nextTrackedIds := filter (fun trackedId => trackedId <> messageId) trackedIds in
    match nextTrackedIds with
    | [] => delete chatId t
    | _ => <[chatId := nextTrackedIds]> t
    end
  end.

(** [deleteTelegramMessage]: the answer of [deleteMessage] for each message
    is given by [api] (ok, an HTTP failure, or a rejected [fetch], which
    raises as in [send]); an ok answer untracks the message. *)
Definition deleteTelegramMessage (api : Z -> transport_state) (chatId messageId : Z)
    (t : tracker) : option bool * tracker :=
  match api messageId with
  | transport_up => (Some true, untrackMessageId chatId messageId t)
  | transport_http_error => (Some false, t)
  | transport_unreachable => (None, t)
  end.

Record clear_result := {
  clear_ok : bool;
  attemptedCount : Z;
  deletedCount : Z;
  failedCount : Z;
}.

(** The [for] loop over [idsToDelete]: [None] when a delete raises. *)
Fixpoint delete_each (api : Z -> transport_state) (chatId : Z) (ids : list Z)
    (deleted failed : Z) (t : tracker) : option (Z * Z) * tracker :=
  match ids with
  | [] => (Some (deleted, failed), t)
  | messageId :: rest =>
    match deleteTelegramMessage api chatId messageId t with
    | (Some true, t') => delete_each api chatId rest (deleted + 1) failed t'
    | (Some false, t') => delete_each api chatId rest deleted (failed + 1) t'
    | (None, t') => (None, t')
    end
  end.

(** [[...trackedIds].sort((left, right) => right - left)]: a stable sort,
    largest first. *)
Definition sort_desc (ids : list Z) : list Z := @merge_sort Z (fun l r => r <= l) (fun l r => Z_le_dec r l) ids.

(** [clearTrackedTelegramChatHistory] *)
Definition clearTrackedTelegramChatHistory (api : Z -> transport_state) (chatId : Z)
    (t : tracker) : option clear_result * tracker :=
  match t !! chatId with
  | None | Some [] =>
    (Some {| clear_ok := true; attemptedCount := 0; deletedCount := 0; failedCount := 0 |}, t)
  | Some trackedIds =>
    let idsToDelete := sort_desc trackedIds in
    match delete_each api chatId idsToDelete 0 0 t with
    | (Some (deletedCount, failedCount), t') =>
      (Some {| clear_ok := failedCount =? 0;
               attemptedCount := Z.of_nat (length idsToDelete);
               deletedCount := deletedCount; failedCount := failedCount |}, t')
    | (None, t') => (None, t')
    end
  end.

(** [result.ok] of [postTelegramApi]: only an answered, ok request is ok. *)
Definition transport_ok (s : transport_state) : bool :=
  match s with transport_up => true | _ => false end.

(** The shape every chat's tracked list keeps: non-empty, without repeats,
    at most [maxTrackedMessagesPerChat] long. *)
Definition tracker_ok (t : tracker) : Prop :=
  map_Forall (fun _ ids => ids <> [] /\ NoDup ids /\ (length ids <= maxTrackedMessagesPerChat)%nat) t.

(* ------------------------------------------------------------------ *)
(** ** Sample rows and worlds *)

Definition gift_of (m : Z) : telegram_gift :=
  {| giftedByTgId := "300"; giftedByTgName := Some "gifter"%string;
     timeAmountGifted := m; dateOfGift := 20000 |}.

(** A referrer with 5.00 USD of referral balance and three gifts of 3, 1 and
    6 months, in that order. *)
Definition referrer_row : user_row :=
  {| tg_nickname := Some "ref"%string; tg_id := "100"; subscription_active := false;
     subscription_status := None; subscription_untill := None;
     number_of_referals := 0; earned_money := 500; refferals_data := [];
     reffered_by := None; gifts := [gift_of 3; gift_of 1; gift_of 6] |}.

(** A payer referred by "100", subscribed until day 20400. *)
Definition payer_row : user_row :=
  {| tg_nickname := Some "payer"%string; tg_id := "200"; subscription_active := true;
     subscription_status := Some live; subscription_untill := Some 20400;
     number_of_referals := 0; earned_money := 0; refferals_data := [];
     reffered_by := Some {| ref_tgId := "100"; ref_tgNickname := Some "ref"%string;
                            referDate := 20000 |};
     gifts := [] |}.

Definition sample_prices : list subscription_price :=
  [ {| months := 1; stars := 100; usdt := 199; rubles := 15000 |};
    {| months := 3; stars := 250; usdt := 499; rubles := 40000 |} ].

Definition sample_vps : list vps_row :=
  [ {| internal_uuid := "u-1"; nickname := Some "fi-1"%string; country := "Finland";
       country_emoji := "FI"; config_list := ["vless://a"%string; "vless://b"%string] |} ].

(** Day 20300 is 2025-07-31. *)
Definition sample_world : world :=
  {| users := <["100" := referrer_row]> (<["200" := payer_row]> ∅);
     subscription_prices := sample_prices; vps := sample_vps;
     store_up := true; transport := transport_up; today := 20300; outbox := [] |}.

(** The same world with the store answering every request with an error. *)
Definition sample_world_store_down : world :=
  {| users := users sample_world; subscription_prices := sample_prices; vps := sample_vps;
     store_up := false; transport := transport_up; today := 20300; outbox := [] |}.

(* ================================================================== *)
(** * Properties *)

(** ** Store and world equations *)

Lemma set_users_same (w : world) : set_users (users w) w = w.
Proof. destruct w; reflexivity. Qed.

Lemma set_users_set_users (m1 m2 : gmap string user_row) (w : world) :
  set_users m2 (set_users m1 w) = set_users m2 w.
Proof. destruct w; reflexivity. Qed.

Lemma getTelegramUserByTgId_up (w : world) (tgId : string) :
  store_up w = true -> getTelegramUserByTgId tgId w = (inr (users w !! tgId), w).
Proof. intros H. unfold getTelegramUserByTgId, store_guard. now rewrite H. Qed.

Lemma getTelegramUserByTgId_down (w : world) (tgId : string) :
  store_up w = false -> getTelegramUserByTgId tgId w = (inl StoreError, w).
Proof. intros H. unfold getTelegramUserByTgId, store_guard. now rewrite H. Qed.

Lemma send_up (w : world) (o : outbound) :
  transport w = transport_up -> send o w = (inr true, push_outbox o w).
Proof. intros H. unfold send. now rewrite H. Qed.

Lemma push_outbox_fields (w : world) (o : outbound) :
  users (push_outbox o w) = users w /\ store_up (push_outbox o w) = store_up w /\
  transport (push_outbox o w) = transport w /\ today (push_outbox o w) = today w /\
  vps (push_outbox o w) = vps w /\ outbox (push_outbox o w) = outbox w ++ [o].
Proof. destruct w; repeat split. Qed.

Lemma set_users_fields (w : world) (m : gmap string user_row) :
  users (set_users m w) = m /\ store_up (set_users m w) = store_up w /\
  transport (set_users m w) = transport w /\ today (set_users m w) = today w /\
  outbox (set_users m w) = outbox w.
Proof. destruct w; repeat split. Qed.

(** The row [ensureTelegramUser] returns for an existing user. *)
Definition ensure_existing_row (incoming : option string) (u : user_row) : user_row :=
  match incoming with
  | None => u
  | Some _ => if opt_eqb incoming (tg_nickname u) then u else set_tg_nickname incoming u
  end.

Lemma ensureTelegramUser_existing (w : world) (tgId : string) (nick : option string)
    (rb : option telegram_referred_by) (u : user_row) :
  store_up w = true -> users w !! tgId = Some u ->
  ensureTelegramUser tgId nick rb w =
    (inr (ensure_existing_row nick u, false),
     set_users (<[tgId := ensure_existing_row nick u]> (users w)) w).
Proof.
  intros Hup Hu. unfold ensureTelegramUser, bind.
  rewrite (getTelegramUserByTgId_up w tgId Hup), Hu.
  unfold updateTelegramNicknameIfChanged, ensure_existing_row.
  destruct nick as [n|].
  - destruct (opt_eqb (Some n) (tg_nickname u)) eqn:E.
    + unfold ret. rewrite (getTelegramUserByTgId_up w tgId Hup), Hu.
      rewrite insert_id by exact Hu. now rewrite set_users_same.
    + unfold update_where, store_guard. rewrite Hup, Hu.
      rewrite getTelegramUserByTgId_up by (destruct w; exact Hup).
      destruct (set_users_fields w (<[tgId:=set_tg_nickname (Some n) u]> (users w))) as [-> _].
      now rewrite lookup_insert_eq.
  - unfold ret. rewrite (getTelegramUserByTgId_up w tgId Hup), Hu.
    rewrite insert_id by exact Hu. now rewrite set_users_same.
Qed.

Lemma ensure_existing_row_fields (nick : option string) (u : user_row) :
  subscription_untill (ensure_existing_row nick u) = subscription_untill u /\
  earned_money (ensure_existing_row nick u) = earned_money u /\
  gifts (ensure_existing_row nick u) = gifts u /\
  reffered_by (ensure_existing_row nick u) = reffered_by u /\
  refferals_data (ensure_existing_row nick u) = refferals_data u /\
  tg_id (ensure_existing_row nick u) = tg_id u.
Proof.
  unfold ensure_existing_row. destruct nick; [destruct opt_eqb|]; repeat split.
Qed.

(** [activateTelegramSubscription] on an existing row, store available: one
    write of the extended row. *)
Lemma activateTelegramSubscription_existing (w : world) (tgId : string)
    (nick : option string) (months : Z) (u : user_row) :
  0 < months -> store_up w = true -> users w !! tgId = Some u ->
  activateTelegramSubscription tgId nick months w =
    let r := set_subscription true (Some live)
               (Some (addMonths (extension_base (today w) (subscription_untill u)) months))
               (ensure_existing_row nick u) in
    (inr r, set_users (<[tgId := r]> (users w)) w).
Proof.
  intros Hm Hup Hu. unfold activateTelegramSubscription.
  replace (months <=? 0) with false by lia.
  unfold bind at 1. rewrite (ensureTelegramUser_existing w tgId nick None u Hup Hu).
  destruct (set_users_fields w (<[tgId:=ensure_existing_row nick u]> (users w)))
    as (Hus & Hup' & _ & Ht & _).
  destruct (ensure_existing_row_fields nick u) as [Hun _].
  cbn [fst]. unfold bind, get_world. rewrite Ht, Hun.
  unfold update_single, store_guard. rewrite Hup', Hup, Hus, lookup_insert_eq.
  rewrite set_users_set_users, insert_insert_eq. reflexivity.
Qed.

(** ** C8: extension of the expiry *)

(** C8: for an existing user and a positive month count [N],
    [activateTelegramSubscription] writes one row whose expiry is today plus
    [N] calendar months when the stored expiry is absent or not after today,
    and the stored expiry plus [N] calendar months when it is after today;
    the row is also marked [live] and active. *)
Theorem activateTelegramSubscription_expiry (w : world) (tgId : string)
    (nick : option string) (N : Z) (u : user_row) :
  0 < N -> store_up w = true -> users w !! tgId = Some u ->
  exists r,
    activateTelegramSubscription tgId nick N w = (inr r, set_users (<[tgId := r]> (users w)) w) /\
    subscription_active r = true /\ subscription_status r = Some live /\
    ((forall d, subscription_untill u = Some d -> d <= today w) ->
       subscription_untill r = Some (addMonths (today w) N)) /\
    (forall d, subscription_untill u = Some d -> today w < d ->
       subscription_untill r = Some (addMonths d N)).
Proof.
  intros HN Hup Hu.
  rewrite (activateTelegramSubscription_existing w tgId nick N u HN Hup Hu).
  eexists. split; [reflexivity|]. cbn.
  split; [reflexivity|]. split; [reflexivity|]. split.
  - intros Hpast. unfold extension_base.
    destruct (subscription_untill u) as [d|] eqn:E; [|reflexivity].
    specialize (Hpast d eq_refl). replace (today w <? d) with false by lia. reflexivity.
  - intros d Hd Hfut. unfold extension_base. rewrite Hd.
    replace (today w <? d) with true by lia. reflexivity.
Qed.

(** Payer "200" (expiry day 20400, after today 20300) buys one month. *)
Lemma activateTelegramSubscription_expiry_witness :
  (0 < 1 /\ store_up sample_world = true /\ users sample_world !! "200"%string = Some payer_row) /\
  exists r,
    activateTelegramSubscription "200" None 1 sample_world =
      (inr r, set_users (<["200"%string := r]> (users sample_world)) sample_world) /\
    subscription_active r = true /\ subscription_status r = Some live /\
    ((forall d, subscription_untill payer_row = Some d -> d <= today sample_world) ->
       subscription_untill r = Some (addMonths (today sample_world) 1)) /\
    (forall d, subscription_untill payer_row = Some d -> today sample_world < d ->
       subscription_untill r = Some (addMonths d 1)).
Proof.
  split; [split; [lia | split; vm_compute; reflexivity]|].
  apply (activateTelegramSubscription_expiry sample_world "200" None 1 payer_row);
    [lia | vm_compute; reflexivity | vm_compute; reflexivity].
Defined.

(** ** C9: the [/start id=...] command *)

Definition start_id_command : ParsedTelegramCommand :=
  getTelegramCommand (Some (txt "/start id=999999999")) None.

(** C9 (counterexample): [getTelegramCommand("/start id=999999999", undefined)]
    is suspicious, but its reason does not contain "injection". *)
Lemma start_id_reason_not_injection :
  ~ (isSuspicious start_id_command = true /\
     exists s, reason start_id_command = Some s /\ contains (txt "injection") (txt s) = true).
Proof.
  intros [_ [s [Hs Hc]]]. vm_compute in Hs. injection Hs as <-.
  vm_compute in Hc. discriminate Hc.
Qed.

(** C9 (amended): the verdict is suspicious, with no command and no argument,
    and the reason is "Unsupported /start payload.": a [/start] argument that
    is not [ref_<id>] is rejected before the injection pattern is tried. *)
Theorem start_id_unsupported_payload :
  start_id_command =
    {| command := None; argument := None; isSuspicious := true;
       reason := Some "Unsupported /start payload."%string |}.
Proof. vm_compute. reflexivity. Qed.

(** ** C10: access to the server browsing *)

(** The access rule in the words of the property: the row exists and it is
    active or its status is [live] or [ending]. *)
Definition servers_access_spec (telegramUser : option user_row) : Prop :=
  match telegramUser with
  | Some u => subscription_active u = true \/ subscription_status u = Some live \/
              subscription_status u = Some ending
  | None => False
  end.

(** The first chat message a handler run sent. *)
Definition first_sent (before after : world) : option outbound :=
  head (drop (length (outbox before)) (outbox after)).

Lemma user_has_servers_access_spec (o : option user_row) :
  user_has_servers_access o = true <-> servers_access_spec o.
Proof.
  destruct o as [u|]; cbn; [|split; [discriminate | tauto]].
  unfold hasAccessToServers.
  rewrite !orb_true_iff, !bool_decide_eq_true. tauto.
Qed.

Lemma first_sent_push (w : world) (o : outbound) : first_sent w (push_outbox o w) = Some o.
Proof.
  unfold first_sent. destruct (push_outbox_fields w o) as (_ & _ & _ & _ & _ & ->).
  rewrite drop_app_length. reflexivity.
Qed.

Lemma first_sent_app (w w' : world) (l : list outbound) :
  outbox w' = outbox w ++ l -> first_sent w w' = head l.
Proof. intros H. unfold first_sent. rewrite H, drop_app_length. reflexivity. Qed.

Lemma send_config_urls_up (chatId : Z) (urls : list string) :
  forall (s : bool) (w : world), transport w = transport_up ->
  exists w' l, send_config_urls chatId urls s w = (inr s, w') /\ outbox w' = outbox w ++ l.
Proof.
  induction urls as [|x r IH]; intros s w Ht; cbn.
  - exists w, []. rewrite app_nil_r. split; reflexivity.
  - unfold bind. rewrite (send_up w _ Ht).
    destruct (push_outbox_fields w (ConfigUrl chatId x)) as (_ & _ & Ht' & _ & _ & Ho).
    rewrite andb_true_r.
    destruct (IH s (push_outbox (ConfigUrl chatId x) w)) as (w' & l & E & Ho');
      [rewrite Ht'; exact Ht|].
    exists w', (ConfigUrl chatId x :: l). rewrite E. split; [reflexivity|].
    rewrite Ho', Ho, <- app_assoc. reflexivity.
Qed.

Lemma countriesMenuBranch_gate (w : world) (fromId chatId : Z) :
  store_up w = true -> transport w = transport_up ->
  first_sent w (countriesMenuBranch fromId chatId w).2 = Some (SubscriptionRequiredForServers chatId) <->
  user_has_servers_access (users w !! String_of_id fromId) = false.
Proof.
  intros Hup Ht. unfold countriesMenuBranch, catch, bind.
  rewrite (getTelegramUserByTgId_up w _ Hup).
  destruct (user_has_servers_access (users w !! String_of_id fromId)); cbn [negb].
  - unfold listUniqueVpsCountries, store_guard. rewrite Hup.
    match goal with |- context [match ?l with [] => _ | _ :: _ => _ end] => destruct l end;
      rewrite (send_up w _ Ht); cbn; rewrite first_sent_push; split; congruence.
  - rewrite (send_up w _ Ht). cbn. rewrite first_sent_push. split; reflexivity.
Qed.

Lemma countriesActionBranch_gate (w : world) (fromId chatId : Z) (a : countries_action) :
  store_up w = true -> transport w = transport_up ->
  first_sent w (countriesActionBranch fromId chatId a w).2 = Some (SubscriptionRequiredForServers chatId) <->
  user_has_servers_access (users w !! String_of_id fromId) = false.
Proof.
  intros Hup Ht. unfold countriesActionBranch, bind.
  rewrite (getTelegramUserByTgId_up w _ Hup).
  destruct (user_has_servers_access (users w !! String_of_id fromId)); cbn [negb].
  - destruct a as [c|uuid]; unfold catch, bind.
    + unfold listVpsByCountry, store_guard. rewrite Hup.
      match goal with |- context [match ?l with [] => _ | _ :: _ => _ end] => destruct l end;
        rewrite (send_up w _ Ht); cbn; rewrite first_sent_push; split; congruence.
    + unfold getVpsConfigByInternalUuid, store_guard. rewrite Hup.
      destruct (filter (fun row => internal_uuid row = uuid) (vps w)) as [|row [|row' rest]].
      * rewrite (send_up w _ Ht). cbn. rewrite first_sent_push. split; congruence.
      * destruct (config_list row) as [|x urls].
        -- rewrite (send_up w _ Ht). cbn. rewrite first_sent_push. split; congruence.
        -- rewrite (send_up w _ Ht).
           destruct (push_outbox_fields w (ConfigIntro chatId)) as (_ & _ & Ht' & _ & _ & Ho).
           destruct (send_config_urls_up chatId (x :: urls) true (push_outbox (ConfigIntro chatId) w))
             as (w' & l & E & Ho'); [rewrite Ht'; exact Ht|].
           rewrite E. cbn.
           rewrite (first_sent_app w w' (ConfigIntro chatId :: l))
             by (rewrite Ho', Ho, <- app_assoc; reflexivity).
           split; cbn; congruence.
      * cbn. unfold first_sent. rewrite drop_all. split; cbn; congruence.
  - rewrite (send_up w _ Ht). cbn. rewrite first_sent_push. split; reflexivity.
Qed.

(** C10: with the store and the chat transport available, the countries menu
    and every countries action first send the subscription-required message
    exactly when it is not the case that the user row exists and is active or
    has status [live] or [ending]; otherwise they go on to the catalog. *)
Theorem servers_access_gate (w : world) (fromId chatId : Z) (a : countries_action) :
  store_up w = true -> transport w = transport_up ->
  (first_sent w (countriesMenuBranch fromId chatId w).2 =
     Some (SubscriptionRequiredForServers chatId) <->
   ~ servers_access_spec (users w !! String_of_id fromId)) /\
  (first_sent w (countriesActionBranch fromId chatId a w).2 =
     Some (SubscriptionRequiredForServers chatId) <->
   ~ servers_access_spec (users w !! String_of_id fromId)).
Proof.
  intros Hup Ht.
  rewrite (countriesMenuBranch_gate w fromId chatId Hup Ht),
          (countriesActionBranch_gate w fromId chatId a Hup Ht),
          <- user_has_servers_access_spec, <- not_true_iff_false.
  split; reflexivity.
Qed.

(** User "100" (inactive, no status) asks for the servers of Finland. *)
Lemma servers_access_gate_witness :
  (store_up sample_world = true /\ transport sample_world = transport_up) /\
  (first_sent sample_world (countriesMenuBranch 100 100 sample_world).2 =
     Some (SubscriptionRequiredForServers 100) <->
   ~ servers_access_spec (users sample_world !! String_of_id 100)) /\
  (first_sent sample_world (countriesActionBranch 100 100 (CountryAction "Finland") sample_world).2 =
     Some (SubscriptionRequiredForServers 100) <->
   ~ servers_access_spec (users sample_world !! String_of_id 100)).
Proof.
  split; [split; reflexivity|].
  apply (servers_access_gate sample_world 100 100 (CountryAction "Finland")); reflexivity.
Defined.

(** ** C1: purchase from the referral balance *)

Lemma fromBalancePrepare_existing (w : world) (tgId : string) (nick : option string)
    (months amountUsd : Z) (u : user_row) :
  0 < months -> 0 < amountUsd -> store_up w = true -> users w !! tgId = Some u ->
  let w1 := set_users (<[tgId := ensure_existing_row nick u]> (users w)) w in
  fromBalancePrepare tgId nick months amountUsd w =
    if earned_money u - amountUsd <? 0 then (inl InsufficientReferralBalance, w1)
    else (inr {| planned_until :=
                   addMonths (extension_base (today w) (subscription_untill u)) months;
                 planned_earned_money := earned_money u - amountUsd |}, w1).
Proof.
  intros Hm Ha Hup Hu w1. unfold fromBalancePrepare.
  replace (months <=? 0) with false by lia. replace (amountUsd <=? 0) with false by lia.
  unfold bind at 1. rewrite (ensureTelegramUser_existing w tgId nick None u Hup Hu).
  destruct (ensure_existing_row_fields nick u) as (Hun & Hem & _).
  cbn [fst]. rewrite Hem.
  destruct (earned_money u - amountUsd <? 0); [reflexivity|].
  unfold bind, get_world, ret. rewrite Hun.
  destruct (set_users_fields w (<[tgId:=ensure_existing_row nick u]> (users w))) as (_ & _ & _ & -> & _).
  reflexivity.
Qed.

Lemma fromBalanceCommit_row (w : world) (tgId : string) (amountUsd : Z) (p : balance_plan)
    (u : user_row) :
  store_up w = true -> users w !! tgId = Some u ->
  fromBalanceCommit tgId amountUsd p w =
    if amountUsd <=? earned_money u then
      let r := set_earned_money (planned_earned_money p)
                 (set_subscription true (Some live) (Some (planned_until p)) u) in
      (inr r, set_users (<[tgId := r]> (users w)) w)
    else (inl InsufficientReferralBalance, w).
Proof.
  intros Hup Hu. unfold fromBalanceCommit, bind, update_maybe, store_guard.
  rewrite Hup, Hu. destruct (amountUsd <=? earned_money u); reflexivity.
Qed.




(** Two purchases of 2.00 by user "100" (balance 5.00) whose reads both come
    before their writes: both writes pass the [earned_money >= amount] filter
    and both calls succeed, but the balance is debited once, since each write
    stores the value computed from the common stale read. *)
Lemma fromBalance_stale_read_interleaving :
  let w := sample_world in
  match fromBalancePrepare "100" None 1 200 w with
  | (inr p1, w1) =>
    match fromBalancePrepare "100" None 1 200 w1 with
    | (inr p2, w2) =>
      match fromBalanceCommit "100" 200 p1 w2 with
      | (inr r1, w3) =>
        match fromBalanceCommit "100" 200 p2 w3 with
        | (inr r2, w4) =>
          earned_money r1 = 300 /\ earned_money r2 = 300 /\
          (earned_money <$> users w4 !! "100"%string) = Some 300
        | _ => False
        end
      | _ => False
      end
    | _ => False
    end
  | _ => False
  end.
Proof. vm_compute. repeat split. Qed.

(** ** C4: referral rewards over repeated purchases *)

(** [n] calls of a command in a row, answering the last result. *)
Fixpoint repeat_call {A} (n : nat) (c : M A) : M (option A) :=
  match n with
  | O => ret None
  | S n' => let* _prev := repeat_call n' c in let* r := c in ret (Some r)
  end.

Section ReferralRuns.

Variables (payerTgId : string) (payerTgNickname : option string) (amount : Z).
Variables (payer referrer : user_row) (rb : telegram_referred_by).

(** The payer's entry in the referrer's list after [k] purchases. *)
Definition payer_entry (k : Z) : telegram_referral_entry :=
  {| entry_tgId := tg_id payer;
     entry_tgLogin := coalesce (tg_nickname payer) payerTgNickname;
     entry_tgNickname := coalesce payerTgNickname (tg_nickname payer);
     numberOfPurchase := k |}.

(** The referrer's row after [k] purchases of the payer, the first rewarded
    with 20% and the others with 10%. *)
Definition referrer_after (k : nat) : user_row :=
  match k with
  | O => referrer
  | S k' =>
    set_referrals (Z.of_nat (length (refferals_data referrer)) + 1)
      (refferals_data referrer ++ [payer_entry (Z.of_nat k)])
      (set_earned_money (earned_money referrer + mathRound (amount * 20) 100
                         + Z.of_nat k' * mathRound (amount * 10) 100) referrer)
  end.

Definition reward_pct (k : nat) : Z := if (k =? 0)%nat then 20 else 10.

Hypothesis Hamount : 0 < amount.
Hypothesis Hpayer_id : tg_id payer = payerTgId.
Hypothesis Href_of_payer : reffered_by payer = Some rb.
Hypothesis Href_not_payer : ref_tgId rb <> payerTgId.
Hypothesis Href_id : tg_id referrer = ref_tgId rb.
Hypothesis Hno_entry : Forall (fun e => entry_tgId e <> payerTgId) (refferals_data referrer).

Lemma findIndex_absent (l : list telegram_referral_entry) (x : string) :
  Forall (fun e => entry_tgId e <> x) l ->
  findIndex (fun e => bool_decide (entry_tgId e = x)) l = None.
Proof.
  induction 1 as [|e l He _ IH]; cbn; [reflexivity|].
  rewrite bool_decide_eq_false_2 by exact He. rewrite IH. reflexivity.
Qed.

Lemma findIndex_last (l : list telegram_referral_entry) (e : telegram_referral_entry) (x : string) :
  Forall (fun e => entry_tgId e <> x) l -> entry_tgId e = x ->
  findIndex (fun e => bool_decide (entry_tgId e = x)) (l ++ [e]) = Some (length l).
Proof.
  induction 1 as [|e' l He _ IH]; intros Hx; cbn.
  - rewrite bool_decide_eq_true_2 by exact Hx. reflexivity.
  - rewrite bool_decide_eq_false_2 by exact He. rewrite (IH Hx). reflexivity.
Qed.

Lemma referrer_after_fields (k : nat) :
  tg_id (referrer_after k) = tg_id referrer /\
  (k <> O -> refferals_data (referrer_after k) =
               refferals_data referrer ++ [payer_entry (Z.of_nat k)]) /\
  (k = O -> refferals_data (referrer_after k) = refferals_data referrer).
Proof. destruct k; cbn; repeat split; congruence. Qed.

(** One call, the referrer's row being the one after [k] purchases. *)
Lemma applyReferralReward_step (w : world) (k : nat) :
  store_up w = true -> users w !! payerTgId = Some payer ->
  users w !! ref_tgId rb = Some (referrer_after k) ->
  applyReferralRewardForPurchase payerTgId payerTgNickname amount w =
    (inr {| applied := true; referrerTgId := Some (tg_id referrer);
            rewardAmountUsd := mathRound (amount * reward_pct k) 100;
            rewardPercent := reward_pct k;
            referralPurchaseCount := Z.of_nat (S k) |},
     set_users (<[ref_tgId rb := referrer_after (S k)]> (users w)) w).
Proof.
  intros Hup Hp Hr. pose proof Hno_entry as Hne. rewrite <- Hpayer_id in Hne.
  unfold applyReferralRewardForPurchase.
  replace (amount <=? 0) with false by lia.
  unfold bind. rewrite (getTelegramUserByTgId_up w _ Hup), Hp, Href_of_payer.
  rewrite bool_decide_eq_false_2 by congruence.
  rewrite (getTelegramUserByTgId_up w _ Hup), Hr.
  destruct (referrer_after_fields k) as (Hid & Hdata & Hdata0).
  rewrite Hid, Href_id. unfold update_where, store_guard. rewrite Hup, Hr.
  destruct k as [|k].
  - rewrite (Hdata0 eq_refl), (findIndex_absent _ _ Hne). cbn.
    unfold ret, payer_entry. rewrite length_app. cbn [length].
    rewrite Nat2Z.inj_add. replace (Z.of_nat 0 * mathRound (amount * 10) 100) with 0 by lia.
    rewrite Z.add_0_r. reflexivity.
  - rewrite (Hdata ltac:(discriminate)).
    rewrite (findIndex_last _ _ _ Hne) by reflexivity.
    rewrite lookup_app_r by lia. rewrite Nat.sub_diag. cbn.
    replace (Z.of_nat (S k) =? 0) with false by (symmetry; apply Z.eqb_neq; lia).
    rewrite insert_app_r_alt by lia. rewrite Nat.sub_diag. cbn.
    unfold ret, set_referrals, set_earned_money, payer_entry. cbn.
    rewrite length_app. cbn [length]. rewrite Nat2Z.inj_add.
    replace (Z.of_nat (S k) + 1) with (Z.of_nat (S (S k))) by lia.
    replace (earned_money referrer + mathRound (amount * 20) 100 +
             Z.of_nat k * mathRound (amount * 10) 100 + mathRound (amount * 10) 100)
      with (earned_money referrer + mathRound (amount * 20) 100 +
            Z.of_nat (S k) * mathRound (amount * 10) 100) by lia.
    reflexivity.
Qed.
(** [n + 1] calls in a row from the row state with no entry for the payer. *)
Lemma repeat_applyReferralReward (w : world) (n : nat) :
  store_up w = true -> users w !! payerTgId = Some payer ->
  users w !! ref_tgId rb = Some referrer ->
  repeat_call (S n) (applyReferralRewardForPurchase payerTgId payerTgNickname amount) w =
    (inr (Some {| applied := true; referrerTgId := Some (tg_id referrer);
                  rewardAmountUsd := mathRound (amount * reward_pct n) 100;
                  rewardPercent := reward_pct n;
                  referralPurchaseCount := Z.of_nat (S n) |}),
     set_users (<[ref_tgId rb := referrer_after (S n)]> (users w)) w).
Proof.
  intros Hup Hp Hr. induction n as [|n IH].
  - cbn [repeat_call]. unfold bind at 1. unfold ret at 1. unfold bind.
    rewrite (applyReferralReward_step w 0 Hup Hp Hr). reflexivity.
  - cbn [repeat_call]. cbn [repeat_call] in IH. unfold bind at 1. rewrite IH.
    set (w1 := set_users (<[ref_tgId rb:=referrer_after (S n)]> (users w)) w).
    destruct (set_users_fields w (<[ref_tgId rb:=referrer_after (S n)]> (users w)))
      as (Hus & Hup' & _).
    unfold bind. rewrite (applyReferralReward_step w1 (S n)).
    + unfold ret. subst w1. rewrite Hus, set_users_set_users, insert_insert_eq. reflexivity.
    + subst w1. rewrite Hup'. exact Hup.
    + subst w1. rewrite Hus, lookup_insert_ne by (intros E; apply Href_not_payer; congruence).
      exact Hp.
    + subst w1. rewrite Hus. apply lookup_insert_eq.
Qed.

End ReferralRuns.




(** ** C5: gift activation by index *)

(** C5 (counterexample): user "100" holds gifts of 3, 1 and 6 months and
    selects index 1 (the 1-month gift); the gift at index 0 is activated
    first. The stale index 1 then activates the 6-month gift instead of
    failing with [GiftNotFound]. *)
Lemma stale_gift_index_counterexample :
  let w1 := (activateTelegramGift "100" None 0 sample_world).2 in
  gifts referrer_row !! 1%nat = Some (gift_of 1) /\
  (activateTelegramGift "100" None 1 w1).1 <> inl GiftNotFound /\
  exists row, (activateTelegramGift "100" None 1 w1).1 = inr (gift_of 6, row).
Proof.
  vm_compute. split; [reflexivity|]. split; [discriminate|]. eexists. reflexivity.
Qed.

(** C5 (amended): for a non-negative index and an existing user (store
    available), [activateTelegramGift] fails with [GiftNotFound] exactly when
    the index is not a position of the user's current gift list, changing
    nothing; otherwise it activates the gift at that position of the current
    list (for its positive month count) and writes one row with the expiry
    extended, the subscription live and active, and that position removed. *)
Theorem activateTelegramGift_current_list (w : world) (tgId : string) (nick : option string)
    (giftIndex : Z) (u : user_row) :
  0 <= giftIndex -> store_up w = true -> users w !! tgId = Some u ->
  (gifts u !! Z.to_nat giftIndex = None ->
     activateTelegramGift tgId nick giftIndex w = (inl GiftNotFound, w)) /\
  (forall g, gifts u !! Z.to_nat giftIndex = Some g -> 0 < timeAmountGifted g ->
     exists row,
       activateTelegramGift tgId nick giftIndex w =
         (inr (g, row), set_users (<[tgId := row]> (users w)) w) /\
       gifts row = delete (Z.to_nat giftIndex) (gifts u) /\
       subscription_untill row =
         Some (addMonths (extension_base (today w) (subscription_untill u)) (timeAmountGifted g)) /\
       subscription_status row = Some live /\ subscription_active row = true).
Proof.
  intros Hi Hup Hu.
  assert (E : activateTelegramGift tgId nick giftIndex w =
    match gifts u !! Z.to_nat giftIndex with
    | Some gift =>
      (let* _r := activateTelegramSubscription tgId nick (timeAmountGifted gift) in
       let* row := update_single tgId (set_gifts (delete (Z.to_nat giftIndex) (gifts u))) in
       ret (gift, row)) w
    | None => (inl GiftNotFound, w)
    end).
  { unfold activateTelegramGift. replace (giftIndex <? 0) with false by lia.
    unfold bind at 1. rewrite (getTelegramUserByTgId_up w tgId Hup), Hu.
    cbv beta iota. destruct (gifts u !! Z.to_nat giftIndex); reflexivity. }
  rewrite E. clear E.
  destruct (gifts u !! Z.to_nat giftIndex) as [g0|] eqn:Eg.
  - split; [intros Hg; discriminate Hg|].
    intros g Hg Hm. injection Hg as ->. unfold bind at 1.
    rewrite (activateTelegramSubscription_existing w tgId nick (timeAmountGifted g) u Hm Hup Hu).
    cbv zeta.
    set (r := set_subscription true (Some live) _ (ensure_existing_row nick u)).
    destruct (set_users_fields w (<[tgId:=r]> (users w))) as (Hus & Hup' & _).
    unfold bind, update_single, store_guard. rewrite Hup', Hup, Hus, lookup_insert_eq.
    unfold ret. rewrite set_users_set_users, insert_insert_eq.
    eexists. split; [reflexivity|]. subst r. cbn.
    repeat split.
  - split; [reflexivity|]. intros g Hg. discriminate Hg.
Qed.

(** User "100" activates the 1-month gift at index 1 of its current list. *)
Lemma activateTelegramGift_current_list_witness :
  (0 <= 1 /\ store_up sample_world = true /\
   users sample_world !! "100"%string = Some referrer_row) /\
  (gifts referrer_row !! Z.to_nat 1 = None ->
     activateTelegramGift "100" None 1 sample_world = (inl GiftNotFound, sample_world)) /\
  (forall g, gifts referrer_row !! Z.to_nat 1 = Some g -> 0 < timeAmountGifted g ->
     exists row,
       activateTelegramGift "100" None 1 sample_world =
         (inr (g, row), set_users (<["100"%string := row]> (users sample_world)) sample_world) /\
       gifts row = delete (Z.to_nat 1) (gifts referrer_row) /\
       subscription_untill row =
         Some (addMonths (extension_base (today sample_world) (subscription_untill referrer_row))
                 (timeAmountGifted g)) /\
       subscription_status row = Some live /\ subscription_active row = true).
Proof.
  split; [split; [lia | split; vm_compute; reflexivity]|].
  apply (activateTelegramGift_current_list sample_world "100" None 1 referrer_row);
    [lia | vm_compute; reflexivity | vm_compute; reflexivity].
Defined.

(** ** C6: answering the webhook request *)



(** ** C3: pre-checkout validation *)

Lemma getSubscriptionPriceByMonths_reads (m : Z) (w : world) :
  (getSubscriptionPriceByMonths m w).2 = w.
Proof.
  unfold getSubscriptionPriceByMonths, store_guard.
  destruct (store_up w); [|reflexivity].
  destruct (filter _ _) as [|p [|]]; [reflexivity| |reflexivity].
  destruct (usdt p <? 0); reflexivity.
Qed.



(** ** C2: redelivery of a successful payment *)

Definition sample_payment : payment_message :=
  {| pm_chat_id := 200; pm_from := Some (200, Some "payer"%string);
     pm_currency := txt "XTR"; pm_total_amount := 100;
     pm_invoice_payload := buildSubscriptionInvoicePayload 200 1 |}.


(** ** C7: invoice payload round trip *)

(** *** Decimal digits *)

Lemma code_chr (n : Z) : 0 <= n < 256 -> code (chr n) = n.
Proof.
  intros Hn. unfold code, chr.
  assert (H : (Z.to_nat n < 256)%nat) by lia.
  rewrite (Ascii.nat_ascii_embedding _ H). lia.
Qed.

Lemma digit_chr (k : Z) : 0 <= k <= 9 ->
  is_digit (chr (48 + k)) = true /\ digit_value (chr (48 + k)) = k.
Proof.
  intros Hk. unfold is_digit, digit_value. rewrite (code_chr (48 + k)) by lia.
  split; [apply andb_true_iff; split; apply Z.leb_le|]; lia.
Qed.

Lemma is_digit_code (d : ascii) : is_digit d = true -> 48 <= code d <= 57.
Proof. unfold is_digit. rewrite andb_true_iff, !Z.leb_le. lia. Qed.

Lemma digits_value_app (ds es : chars) :
  digits_value (ds ++ es) = digits_value ds * 10 ^ Z.of_nat (length es) + digits_value es.
Proof.
  unfold digits_value. rewrite foldl_app.
  generalize (foldl (fun acc c => acc * 10 + digit_value c) 0 ds) as a.
  induction es as [|e es IH] using rev_ind; intros a.
  - cbn. lia.
  - rewrite !foldl_app, length_app. cbn [foldl length]. rewrite (IH a).
    rewrite Nat2Z.inj_add, Z.pow_add_r by lia. cbn [Z.of_nat]. lia.
Qed.

(** What [digits_of_pos] produces from a number with enough fuel: the
    digits, the leading one non-zero for a positive number, with their
    value, and no more of them than the number needs. *)
Definition decimal_digits (n : Z) (ds : chars) : Prop :=
  exists d r, ds = d :: r /\ Forall (fun c => is_digit c = true) ds /\
    digits_value ds = n /\ (0 < n -> digit_value d <> 0) /\
    (0 < n -> 10 ^ Z.of_nat (length r) <= n).

Lemma digits_of_pos_spec (f : nat) :
  forall (n : Z) (acc : chars), 0 <= n < 10 ^ Z.of_nat (S f) ->
  exists ds, digits_of_pos (S f) n acc = ds ++ acc /\ decimal_digits n ds.
Proof.
  induction f as [|f IH]; intros n acc Hn; cbn [digits_of_pos].
  - replace (n <? 10) with true by (cbn in Hn; symmetry; apply Z.ltb_lt; lia).
    exists [chr (48 + n)]. split; [reflexivity|].
    destruct (digit_chr n) as [Hd Hv]; [cbn in Hn; lia|].
    exists (chr (48 + n)), []. split; [reflexivity|]. split; [repeat constructor; exact Hd|].
    unfold digits_value. cbn. rewrite Hv. split; [lia|]. split; [lia|]. cbn. lia.
  - destruct (n <? 10) eqn:E.
    + apply Z.ltb_lt in E. exists [chr (48 + n)]. split; [reflexivity|].
      destruct (digit_chr n) as [Hd Hv]; [lia|].
      exists (chr (48 + n)), []. split; [reflexivity|]. split; [repeat constructor; exact Hd|].
      unfold digits_value. cbn. rewrite Hv. split; [lia|]. split; [lia|]. cbn. lia.
    + apply Z.ltb_ge in E.
      destruct (IH (n / 10) (chr (48 + n mod 10) :: acc)) as (ds & Hds & d & r & -> & Hall & Hv & Hlead & Hlen).
      { split; [apply Z.div_pos; lia|].
        apply Z.div_lt_upper_bound; [lia|].
        rewrite Nat2Z.inj_succ, Z.pow_succ_r in Hn by lia. lia. }
      cbn [digits_of_pos] in Hds. rewrite Hds.
      destruct (digit_chr (n mod 10)) as [Hd Hv1]; [pose proof (Z.mod_pos_bound n 10); lia|].
      exists (d :: r ++ [chr (48 + n mod 10)]). split; [cbn; rewrite <- app_assoc; reflexivity|].
      exists d, (r ++ [chr (48 + n mod 10)]). split; [reflexivity|]. split.
      { change (d :: r ++ [chr (48 + n mod 10)]) with ((d :: r) ++ [chr (48 + n mod 10)]).
        apply Forall_app. split; [exact Hall|]. repeat constructor. exact Hd. }
      change (d :: r ++ [chr (48 + n mod 10)]) with ((d :: r) ++ [chr (48 + n mod 10)]).
      rewrite digits_value_app, Hv. cbn [length Z.of_nat].
      unfold digits_value at 1. cbn. rewrite Hv1.
      pose proof (Z.div_mod n 10 ltac:(lia)) as Hdm.
      assert (Hq : 0 < n / 10) by (apply Z.div_str_pos; lia).
      split; [lia|]. split; [intros _; apply Hlead; exact Hq|].
      intros _. rewrite length_app, Nat2Z.inj_add. cbn [length Z.of_nat].
      rewrite Z.pow_add_r by lia. specialize (Hlen Hq).
      pose proof (Z.mod_pos_bound n 10). nia.
Qed.

Lemma decimal_spec (n : Z) : 0 <= n -> decimal_digits n (decimal n).
Proof.
  intros Hn. unfold decimal.
  destruct (digits_of_pos_spec (Z.to_nat (Z.log2 (Z.max n 1))) n [])
    as (ds & Hds & Hspec).
  - split; [exact Hn|].
    assert (Hm : 0 < Z.max n 1) by lia.
    destruct (Z.log2_spec (Z.max n 1) Hm) as [_ Hup].
    rewrite Nat2Z.inj_succ, Z2Nat.id by (apply Z.log2_nonneg).
    apply Z.le_lt_trans with (Z.max n 1); [lia|].
    apply Z.lt_le_trans with (2 ^ Z.succ (Z.log2 (Z.max n 1))); [exact Hup|].
    apply Z.pow_le_mono_l. split; [lia|lia].
  - rewrite Hds, app_nil_r. exact Hspec.
Qed.

(** *** Reading back a printed integer *)

Lemma strip_zeros_spec (f : nat) :
  forall n z, 0 < n -> 0 <= z ->
  0 < (strip_zeros f n z).1 /\ z <= (strip_zeros f n z).2 /\
  (strip_zeros f n z).1 * 10 ^ ((strip_zeros f n z).2 - z) = n.
Proof.
  induction f as [|f IH]; intros n z Hn Hz; cbn [strip_zeros].
  - cbn. replace (z - z) with 0 by lia. lia.
  - destruct ((n mod 10 =? 0) && (0 <? n)) eqn:E; [|cbn; replace (z - z) with 0 by lia; lia].
    apply andb_true_iff in E as [E _]. apply Z.eqb_eq in E.
    pose proof (Z.div_mod n 10 ltac:(lia)) as Hdm.
    assert (Hq : 0 < n / 10) by (apply Z.div_str_pos; lia).
    destruct (IH (n / 10) (z + 1) Hq ltac:(lia)) as (H1 & H2 & H3).
    split; [exact H1|]. split; [lia|].
    replace ((strip_zeros f (n / 10) (z + 1)).2 - z)
      with (((strip_zeros f (n / 10) (z + 1)).2 - (z + 1)) + 1) by lia.
    rewrite Z.pow_add_r by lia. rewrite Z.mul_assoc, H3. lia.
Qed.

Lemma take_digits_app (ds r : chars) :
  Forall (fun c => is_digit c = true) ds ->
  (match r with c :: _ => is_digit c = false | [] => True end) ->
  take_digits (ds ++ r) = (ds, r).
Proof.
  intros Hall Hr. induction Hall as [|c ds Hc _ IH]; cbn.
  - destruct r as [|c r]; [reflexivity|]. cbn. rewrite Hr. reflexivity.
  - rewrite Hc, IH. reflexivity.
Qed.

Lemma eqb_digit_nondigit (d x : ascii) :
  is_digit d = true -> is_digit x = false -> Ascii.eqb d x = false /\ Ascii.eqb x d = false.
Proof.
  intros Hd Hx. destruct (Ascii.eqb_spec d x) as [->|Hne]; [congruence|].
  destruct (Ascii.eqb_spec x d) as [->|_]; [congruence|]. split; reflexivity.
Qed.

(** A character that may follow a printed number in the payload text. *)
Definition number_end (c : ascii) : bool :=
  negb (is_digit c) && negb (Ascii.eqb c "."%char) && negb (Ascii.eqb c "e"%char)
  && negb (Ascii.eqb c "E"%char).

Lemma parse_number_plain (n : Z) (c : ascii) (r : chars) :
  0 < n -> number_end c = true ->
  parse_number (decimal n ++ c :: r) = Some (JNum n 0, c :: r).
Proof.
  intros Hn Hc. unfold number_end in Hc.
  rewrite !andb_true_iff, !negb_true_iff in Hc. destruct Hc as [[[Hcd Hdot] He] HE].
  destruct (decimal_spec n ltac:(lia)) as (d & rest & Hdec & Hall & Hv & Hlead & _).
  rewrite Hdec in Hall, Hv |- *. pose proof (Forall_inv Hall) as Hd; pose proof (Forall_inv_tail Hall) as Hrest.
  unfold parse_number. cbn [app].
  destruct (eqb_digit_nondigit d "-"%char Hd eq_refl) as [-> _].
  change (d :: rest ++ c :: r) with ((d :: rest) ++ c :: r).
  rewrite take_digits_app by (try constructor; assumption).
  assert (Hd0 : Ascii.eqb d "0"%char = false).
  { destruct (Ascii.eqb_spec d "0"%char) as [->|]; [|reflexivity].
    exfalso. apply (Hlead Hn). reflexivity. }
  rewrite Hd0. cbn [andb]. rewrite Hdot. cbn [orb]. rewrite He, HE. cbn [orb].
  rewrite app_nil_r, Hv. cbn. rewrite Z.mul_1_r. reflexivity.
Qed.

Lemma digits_nonempty_head (ds : chars) (n : Z) :
  decimal_digits n ds -> exists d r, ds = d :: r /\ is_digit d = true.
Proof.
  intros (d & r & -> & Hall & _). exists d, r. split; [reflexivity|].
  inversion Hall; assumption.
Qed.

(** Comparisons of two literal characters evaluate to their value. *)
Ltac eval_char_eqs :=
  repeat (match goal with
  | |- context [Ascii.eqb ?a ?b] =>
    let v := eval vm_compute in (Ascii.eqb a b) in
    match v with
    | true => change (Ascii.eqb a b) with true
    | false => change (Ascii.eqb a b) with false
    end
  end; cbv beta iota delta [orb andb negb]).

Lemma parse_number_exponent (n : Z) (c : ascii) (r : chars) :
  10 ^ 21 <= n -> number_end c = true ->
  parse_number (js_int_to_string n ++ c :: r) = Some (JNum n 0, c :: r).
Proof.
  intros Hn Hc. unfold number_end in Hc.
  rewrite !andb_true_iff, !negb_true_iff in Hc. destruct Hc as [[[Hcd Hdot] He] HE].
  unfold js_int_to_string.
  replace (n <? 0) with false by lia. rewrite Z.abs_eq by lia.
  replace (n <? 10 ^ 21) with false by lia. cbn [app].
  destruct (strip_zeros_spec (Z.to_nat (Z.log2 n)) n 0 ltac:(lia) ltac:(lia)) as (Hm & Hz & Hmz).
  destruct (strip_zeros (Z.to_nat (Z.log2 n)) n 0) as [m z]. cbn [fst snd] in Hm, Hz, Hmz.
  rewrite Z.sub_0_r in Hmz.
  destruct (decimal_spec m ltac:(lia)) as (d & rest & Hdec & Hall & Hv & _).
  assert (He0 : 0 <= Z.of_nat (length (decimal m)) - 1 + z) by (rewrite Hdec; cbn [length]; lia).
  destruct (decimal_spec _ He0) as (ed & erest & Hedec & Heall & Hev & _).
  rewrite Hedec in Heall, Hev |- *. rewrite Hdec in Hall, Hv, Hev |- *.
  pose proof (Forall_inv Hall) as Hd. pose proof (Forall_inv_tail Hall) as Hrest.
  pose proof (Forall_inv Heall) as Hed.
  destruct (eqb_digit_nondigit d "-"%char Hd eq_refl) as [Hdm _].
  destruct rest as [|d2 rest2]; cbn [take drop app length] in *.
  - unfold parse_number. cbv beta iota. rewrite Hdm.
    change (d :: "e"%char :: "+"%char :: ed :: erest ++ c :: r)
      with ([d] ++ "e"%char :: "+"%char :: ed :: erest ++ c :: r).
    rewrite take_digits_app by (first [exact Hall | reflexivity]).
    cbv beta iota. replace (negb (bool_decide ([] = @nil ascii))) with false by reflexivity.
    rewrite andb_false_r. cbv beta iota. eval_char_eqs.
    change (ed :: erest ++ c :: r) with ((ed :: erest) ++ c :: r).
    rewrite take_digits_app by (first [exact Heall | exact Hcd]).
    cbv beta iota. rewrite app_nil_r, Hv, Hev.
    replace (Z.of_nat (length (@nil ascii)) - (Z.of_nat 1 - 1 + z)) with (- z) by (cbn; lia).
    replace (- z <=? 0) with true by lia. rewrite Z.opp_involutive, Hmz.
    replace (Z.to_nat (- z)) with 0%nat by lia. reflexivity.
  - rewrite <- !app_assoc. cbn [app].
    unfold parse_number. cbv beta iota. rewrite Hdm.
    change (d :: "."%char :: d2 :: rest2 ++ "e"%char :: "+"%char :: ed :: erest ++ c :: r)
      with ([d] ++ "."%char :: d2 :: rest2 ++ "e"%char :: "+"%char :: ed :: erest ++ c :: r).
    rewrite take_digits_app by (first [constructor; [exact Hd | constructor] | reflexivity]).
    cbv beta iota. replace (negb (bool_decide ([] = @nil ascii))) with false by reflexivity.
    rewrite andb_false_r. cbv beta iota. eval_char_eqs.
    change (d2 :: rest2 ++ "e"%char :: "+"%char :: ed :: erest ++ c :: r)
      with ((d2 :: rest2) ++ "e"%char :: "+"%char :: ed :: erest ++ c :: r).
    rewrite take_digits_app by (first [exact Hrest | reflexivity]).
    cbv beta iota. eval_char_eqs.
    change (ed :: erest ++ c :: r) with ((ed :: erest) ++ c :: r).
    rewrite take_digits_app by (first [exact Heall | exact Hcd]).
    cbv beta iota.
    change ([d] ++ d2 :: rest2) with (d :: d2 :: rest2). rewrite Hv, Hev.
    replace (Z.of_nat (length (d2 :: rest2)) - (Z.of_nat (S (S (length rest2))) - 1 + z))
      with (- z) by (cbn [length]; lia).
    replace (- z <=? 0) with true by lia. rewrite Z.opp_involutive, Hmz.
    replace (Z.to_nat (- z)) with 0%nat by lia. reflexivity.
Qed.

Lemma parse_number_js_int (n : Z) (c : ascii) (r : chars) :
  0 < n -> number_end c = true ->
  parse_number (js_int_to_string n ++ c :: r) = Some (JNum n 0, c :: r).
Proof.
  intros Hn Hc. destruct (Z.lt_ge_cases n (10 ^ 21)) as [Hs|Hb].
  - unfold js_int_to_string. replace (n <? 0) with false by lia.
    rewrite Z.abs_eq by lia. replace (n <? 10 ^ 21) with true by lia. cbn [app].
    apply parse_number_plain; assumption.
  - apply parse_number_exponent; assumption.
Qed.

(** *** String literals without escapes *)

(** A character that [JSON.stringify] writes as itself. *)
Definition plain_char (c : ascii) : bool :=
  (32 <=? code c) && negb (Ascii.eqb c dquote) && negb (Ascii.eqb c "\"%char).

Lemma quote_char_plain (c : ascii) : plain_char c = true -> quote_char c = [c].
Proof.
  unfold plain_char, quote_char. rewrite !andb_true_iff, !negb_true_iff.
  intros [[Hc Hq] Hb]. rewrite Hq, Hb.
  replace (code c =? 8) with false by lia. replace (code c =? 9) with false by lia.
  replace (code c =? 10) with false by lia. replace (code c =? 12) with false by lia.
  replace (code c =? 13) with false by lia. replace (code c <? 32) with false by lia.
  reflexivity.
Qed.

Lemma quote_plain (s : chars) :
  forallb plain_char s = true -> s ≫= quote_char = s.
Proof.
  induction s as [|c s IH]; cbn; [reflexivity|].
  rewrite andb_true_iff. intros [Hc Hs].
  rewrite quote_char_plain by exact Hc. cbn. rewrite IH by exact Hs. reflexivity.
Qed.

Lemma parse_string_body_plain (s r acc : chars) :
  forallb plain_char s = true ->
  parse_string_body (s ++ dquote :: r) acc = Some (rev acc ++ s, r).
Proof.
  revert acc. induction s as [|c s IH]; intros acc Hs; cbn [app].
  - cbn. rewrite app_nil_r. reflexivity.
  - cbn in Hs. apply andb_true_iff in Hs as [Hc Hs].
    unfold plain_char in Hc. rewrite !andb_true_iff, !negb_true_iff in Hc.
    destruct Hc as [[Hc Hq] Hb].
    cbn [parse_string_body]. rewrite Hq, Hb. replace (code c <? 32) with false by lia.
    rewrite IH by exact Hs. cbn. rewrite <- app_assoc. reflexivity.
Qed.

Lemma plain_char_digit (c : ascii) : is_digit c = true -> plain_char c = true.
Proof.
  unfold is_digit, plain_char. rewrite andb_true_iff. intros [H1 H2].
  destruct (Ascii.eqb_spec c dquote) as [->|_]; [cbn in H1; discriminate|].
  destruct (Ascii.eqb_spec c "\"%char) as [->|_]; [cbn in H2; discriminate|].
  cbn [negb]. rewrite !andb_true_r. apply Z.leb_le. apply Z.leb_le in H1. lia.
Qed.

Lemma is_json_ws_digit (c : ascii) : is_digit c = true -> is_json_ws c = false.
Proof.
  unfold is_digit, is_json_ws. rewrite andb_true_iff. intros [H1 H2].
  apply Z.leb_le in H1. apply Z.leb_le in H2.
  repeat rewrite (proj2 (Z.eqb_neq _ _)) by lia. reflexivity.
Qed.

(** The first character of a printed positive integer is a digit. *)
Lemma js_int_to_string_head (n : Z) :
  0 < n -> exists d r, js_int_to_string n = d :: r /\ is_digit d = true.
Proof.
  intros Hn. unfold js_int_to_string. replace (n <? 0) with false by lia.
  rewrite Z.abs_eq by lia. cbn [app].
  destruct (n <? 10 ^ 21).
  - destruct (decimal_spec n ltac:(lia)) as (d & r & -> & Hall & _).
    exists d, r. split; [reflexivity|exact (Forall_inv Hall)].
  - destruct (strip_zeros_spec (Z.to_nat (Z.log2 n)) n 0 ltac:(lia) ltac:(lia)) as (Hm & _).
    destruct (strip_zeros (Z.to_nat (Z.log2 n)) n 0) as [m z]. cbn [fst] in Hm.
    destruct (decimal_spec m ltac:(lia)) as (d & r & Hdec & Hall & _).
    rewrite Hdec in Hall |- *. cbn [take app].
    eexists d, _. split; [reflexivity|exact (Forall_inv Hall)].
Qed.

(** *** Objects of strings and positive integers *)

Ltac eval_ws :=
  repeat (match goal with
  | |- context [is_json_ws ?a] =>
    let v := eval vm_compute in (is_json_ws a) in
    match v with
    | true => change (is_json_ws a) with true
    | false => change (is_json_ws a) with false
    end
  end; cbv beta iota).

(** The member values [buildSubscriptionInvoicePayload] writes. *)
Definition simple_value (v : jv) : Prop :=
  match v with
  | JStr s => forallb plain_char s = true
  | JNum n O => 0 < n
  | _ => False
  end.

Definition simple_member (kv : chars * jv) : Prop :=
  forallb plain_char kv.1 = true /\ simple_value kv.2.

Definition member_text (kv : chars * jv) : chars := quote kv.1 ++ ":"%char :: stringify kv.2.

Lemma parse_value_simple (f : nat) (v : jv) (c : ascii) (r : chars) :
  simple_value v -> number_end c = true ->
  parse_value (S f) (stringify v ++ c :: r) = Some (v, c :: r).
Proof.
  intros Hv Hc. destruct v as [| |n [|k]|s| |]; cbn [simple_value] in Hv; try contradiction.
  - destruct (js_int_to_string_head n Hv) as (d & rest & Hh & Hd).
    cbn [stringify]. rewrite Hh. cbn [app parse_value skip_ws].
    rewrite (is_json_ws_digit d Hd). cbv beta iota.
    rewrite (proj1 (eqb_digit_nondigit d "{"%char Hd eq_refl)).
    rewrite (proj1 (eqb_digit_nondigit d "["%char Hd eq_refl)).
    rewrite (proj1 (eqb_digit_nondigit d dquote Hd eq_refl)).
    cbn [txt String.list_ascii_of_string]. cbn [strip_prefix].
    rewrite (proj2 (eqb_digit_nondigit d "t"%char Hd eq_refl)).
    rewrite (proj2 (eqb_digit_nondigit d "f"%char Hd eq_refl)).
    rewrite (proj2 (eqb_digit_nondigit d "n"%char Hd eq_refl)).
    change (d :: rest ++ c :: r) with ((d :: rest) ++ c :: r). rewrite <- Hh.
    apply parse_number_js_int; assumption.
  - cbn [stringify]. unfold quote. rewrite quote_plain by exact Hv.
    cbn [app parse_value skip_ws]. eval_ws. eval_char_eqs.
    rewrite <- app_assoc. cbn [app]. rewrite parse_string_body_plain by exact Hv.
    reflexivity.
Qed.

Lemma skip_ws_member (kv : chars * jv) (s : chars) : skip_ws (member_text kv ++ s) = member_text kv ++ s.
Proof. reflexivity. Qed.

Lemma parse_members_simple (ms : list (chars * jv)) :
  forall kv acc f rest, (S (length ms) < f)%nat -> Forall simple_member (kv :: ms) ->
  parse_members f (member_text kv ++ (map member_text ms ≫= fun y => ","%char :: y) ++ "}"%char :: rest) acc
  = Some (JObj (acc ++ kv :: ms), rest).
Proof.
  induction ms as [|kv' ms IH]; intros kv acc f rest Hf Hall;
    destruct f as [|f]; [lia| |lia|];
    destruct kv as [k v]; destruct (Forall_inv Hall) as [Hk Hv]; cbn [fst snd] in Hk, Hv;
    unfold member_text at 1, quote; cbn [fst snd]; rewrite quote_plain by exact Hk;
    rewrite <- !app_assoc; cbn [app parse_members]; eval_char_eqs;
    rewrite <- app_assoc; cbn [app];
    rewrite parse_string_body_plain by exact Hk; cbv beta iota;
    cbn [skip_ws]; eval_ws; eval_char_eqs;
    (destruct f as [|f]; [cbn [length] in Hf; lia|]).
  - cbn [map mbind list_bind app]. rewrite parse_value_simple by (first [exact Hv | reflexivity]).
    cbv beta iota. cbn [skip_ws]. eval_ws. eval_char_eqs. reflexivity.
  - cbn [map]. cbn [mbind list_bind]. cbn [app].
    rewrite parse_value_simple by (first [exact Hv | reflexivity]).
    cbv beta iota. cbn [skip_ws]. eval_ws. eval_char_eqs.
    rewrite <- app_assoc. rewrite skip_ws_member. change (rev (@nil ascii) ++ k) with k.
    rewrite (IH kv' (acc ++ [(k, v)]) (S f) rest) by (cbn [length] in Hf |- *; first [lia | exact (Forall_inv_tail Hall)]).
    rewrite <- app_assoc. reflexivity.
Qed.

Lemma comma_bind_length (xs : list chars) :
  (length xs <= length (xs ≫= fun y => ","%char :: y))%nat.
Proof.
  induction xs as [|x xs IH]; cbn [mbind list_bind length]; [lia|].
  rewrite length_app. cbn [length]. lia.
Qed.

Lemma JSON_parse_simple_object (kv : chars * jv) (ms : list (chars * jv)) :
  Forall simple_member (kv :: ms) ->
  JSON_parse (stringify (JObj (kv :: ms))) = Some (JObj (kv :: ms)).
Proof.
  intros Hall.
  assert (E : stringify (JObj (kv :: ms))
              = "{"%char :: member_text kv ++ (map member_text ms ≫= fun y => ","%char :: y) ++ ["}"%char])
    by (cbn [stringify map comma_join]; rewrite <- app_assoc; reflexivity).
  assert (HL : (S (length ms) < length (member_text kv ++ (map member_text ms ≫= fun y => ","%char :: y) ++ ["}"%char]))%nat).
  { pose proof (comma_bind_length (map member_text ms)) as H. rewrite length_map in H.
    set (B := map member_text ms ≫= (fun y => ","%char :: y)) in *. clearbody B.
    destruct kv as [k v]. unfold member_text, quote. rewrite !length_app. cbn [length].
    rewrite !length_app. cbn [length]. lia. }
  unfold JSON_parse. rewrite E. cbn [length].
  remember (length (member_text kv ++ (map member_text ms ≫= fun y => ","%char :: y) ++ ["}"%char])) as L eqn:HLeq.
  clear HLeq.
  cbn [parse_value skip_ws]. eval_ws. eval_char_eqs.
  rewrite skip_ws_member. rewrite parse_members_simple by (first [lia | exact Hall]).
  reflexivity.
Qed.

Lemma subscriptionPlanMonthsSchema_int (m : Z) :
  0 < m -> subscriptionPlanMonthsSchema (Some (JNum m 0)) = Some m.
Proof.
  intros Hm. cbn [subscriptionPlanMonthsSchema]. change (10 ^ Z.of_nat 0) with 1.
  rewrite Z.mod_1_r, Z.div_1_r. replace (0 <? m) with true by lia. reflexivity.
Qed.

Lemma tgIdSchema_text (t : chars) : is_tg_id_text t = true -> tgIdSchema (Some (JStr t)) = Some t.
Proof. intros Ht. cbn [tgIdSchema]. rewrite Ht. reflexivity. Qed.

Lemma forallb_digits_plain (r : chars) : forallb is_digit r = true -> forallb plain_char r = true.
Proof.
  induction r as [|c r IH]; cbn; [reflexivity|].
  rewrite !andb_true_iff. intros [Hc Hr]. split; [apply plain_char_digit, Hc|apply IH, Hr].
Qed.

Lemma tg_id_text_plain (s : chars) : is_tg_id_text s = true -> forallb plain_char s = true.
Proof.
  destruct s as [|c r]; cbn [is_tg_id_text]; [discriminate|].
  rewrite !andb_true_iff. intros [[[H1 H2] Hr] _]. cbn [forallb].
  rewrite forallb_digits_plain by exact Hr. rewrite andb_true_r.
  apply plain_char_digit. unfold is_digit. apply andb_true_iff.
  apply Z.leb_le in H1. split; [apply Z.leb_le; lia|exact H2].
Qed.

Lemma is_tg_id_text_js_int (n : Z) :
  0 < n < 10 ^ 20 -> is_tg_id_text (js_int_to_string n) = true.
Proof.
  intros Hn. unfold js_int_to_string. replace (n <? 0) with false by lia.
  rewrite Z.abs_eq by lia. replace (n <? 10 ^ 21) with true by lia. cbn [app].
  destruct (decimal_spec n ltac:(lia)) as (d & r & -> & Hall & _ & Hlead & Hlen).
  pose proof (Forall_inv Hall) as Hd. pose proof (Forall_inv_tail Hall) as Hr.
  specialize (Hlead ltac:(lia)). specialize (Hlen ltac:(lia)).
  cbn [is_tg_id_text]. unfold is_digit in Hd. unfold digit_value in Hlead.
  apply andb_true_iff in Hd as [H1 H2]. apply Z.leb_le in H1.
  rewrite H2. replace (49 <=? code d) with true by lia. cbn [andb].
  replace (forallb is_digit r) with true
    by (symmetry; apply forallb_forall; intros x Hx; rewrite List.Forall_forall in Hr; apply Hr, Hx).
  apply Nat.leb_le. destruct (Nat.le_gt_cases (length r) 19) as [|Hgt]; [assumption|].
  exfalso. assert (10 ^ 20 <= 10 ^ Z.of_nat (length r)) by (apply Z.pow_le_mono_r; lia). lia.
Qed.

(** *** The round trip *)




(* ================================================================== *)
(** * Further properties of the code *)

(** ** Shared lemmas *)

(** The rows of the store are filed under their own [tg_id], as the
    [tg_id] column the store queries by. *)
Definition users_keyed (w : world) : Prop := map_Forall (fun k u => tg_id u = k) (users w).

Lemma ensure_existing_row_same (nick : option string) (u : user_row) :
  (nick = None \/ tg_nickname u = nick) -> ensure_existing_row nick u = u.
Proof.
  intros H. unfold ensure_existing_row. destruct nick as [n|]; [|reflexivity].
  destruct H as [H|H]; [discriminate|]. unfold opt_eqb. rewrite H.
  rewrite bool_decide_eq_true_2 by reflexivity. reflexivity.
Qed.

Lemma ensure_existing_row_nickname (nick : option string) (u : user_row) :
  nick = None \/ tg_nickname (ensure_existing_row nick u) = nick.
Proof.
  unfold ensure_existing_row. destruct nick as [n|]; [right|left; reflexivity].
  destruct (opt_eqb (Some n) (tg_nickname u)) eqn:E; [|reflexivity].
  unfold opt_eqb in E. apply bool_decide_eq_true in E. symmetry. exact E.
Qed.

Lemma ensureTelegramUser_new (w : world) (tgId : string) (nick : option string)
    (rb : option telegram_referred_by) :
  store_up w = true -> users w !! tgId = None ->
  ensureTelegramUser tgId nick rb w =
    (inr (new_user_row tgId nick (addDays (today w) 3) rb, true),
     set_users (<[tgId := new_user_row tgId nick (addDays (today w) 3) rb]> (users w)) w).
Proof.
  intros Hup Hn. unfold ensureTelegramUser, bind.
  rewrite (getTelegramUserByTgId_up w tgId Hup), Hn.
  unfold get_world, insert_user, store_guard. rewrite Hup. cbn [tg_id new_user_row].
  rewrite Hn. reflexivity.
Qed.

(** ** Ledger *)

(** [ensureTelegramUser] with the store available is idempotent: after one
    call the row is stored under the id, and a second call with the same id
    and nickname, whatever its [referredBy], returns that row with
    [created = false] and writes nothing. *)
Theorem ensureTelegramUser_idempotent (w : world) (tgId : string) (nick : option string)
    (rb rb' : option telegram_referred_by) :
  store_up w = true ->
  exists row created w1,
    ensureTelegramUser tgId nick rb w = (inr (row, created), w1) /\
    users w1 !! tgId = Some row /\
    ensureTelegramUser tgId nick rb' w1 = (inr (row, false), w1).
Proof.
  intros Hup. destruct (users w !! tgId) as [u|] eqn:Hu.
  - rewrite (ensureTelegramUser_existing w tgId nick rb u Hup Hu).
    set (row := ensure_existing_row nick u).
    set (w1 := set_users (<[tgId:=row]> (users w)) w).
    destruct (set_users_fields w (<[tgId:=row]> (users w))) as (Hus & Hup1 & _).
    assert (Hl : users w1 !! tgId = Some row) by (unfold w1; rewrite Hus; apply lookup_insert_eq).
    exists row, false, w1. split; [reflexivity|]. split; [exact Hl|].
    rewrite (ensureTelegramUser_existing w1 tgId nick rb' row ltac:(unfold w1; rewrite Hup1; exact Hup) Hl).
    rewrite (ensure_existing_row_same nick row (ensure_existing_row_nickname nick u)).
    rewrite (insert_id (users w1) tgId row Hl). rewrite set_users_same. reflexivity.
  - rewrite (ensureTelegramUser_new w tgId nick rb Hup Hu).
    set (row := new_user_row tgId nick (addDays (today w) 3) rb).
    set (w1 := set_users (<[tgId:=row]> (users w)) w).
    destruct (set_users_fields w (<[tgId:=row]> (users w))) as (Hus & Hup1 & _).
    assert (Hl : users w1 !! tgId = Some row) by (unfold w1; rewrite Hus; apply lookup_insert_eq).
    exists row, true, w1. split; [reflexivity|]. split; [exact Hl|].
    rewrite (ensureTelegramUser_existing w1 tgId nick rb' row ltac:(unfold w1; rewrite Hup1; exact Hup) Hl).
    rewrite (ensure_existing_row_same nick row ltac:(right; reflexivity)).
    rewrite (insert_id (users w1) tgId row Hl). rewrite set_users_same. reflexivity.
Qed.

Lemma ensureTelegramUser_idempotent_witness :
  store_up sample_world = true /\
  exists row created w1,
    ensureTelegramUser "700" (Some "new"%string) None sample_world = (inr (row, created), w1) /\
    users w1 !! "700"%string = Some row /\
    ensureTelegramUser "700" (Some "new"%string) (reffered_by payer_row) w1 = (inr (row, false), w1).
Proof.
  split; [reflexivity|].
  exact (ensureTelegramUser_idempotent sample_world "700" (Some "new"%string) None
           (reffered_by payer_row) eq_refl).
Defined.

Lemma mathRound_nonneg (num den : Z) : 0 <= num -> 0 < den -> 0 <= mathRound num den.
Proof. intros Hn Hd. unfold mathRound. apply Z.div_pos; lia. Qed.

(** [applyReferralRewardForPurchase] on a store whose rows are filed under
    their ids: an error or an unapplied reward leaves the world as it was;
    an applied reward writes one row only, the referrer's, which is not the
    payer: its balance grows by the non-negative reward and its id,
    subscription, gifts and own referrer are kept. *)
Theorem applyReferralReward_footprint (w : world) (payerTgId : string)
    (nick : option string) (amount : Z) :
  users_keyed w ->
  match applyReferralRewardForPurchase payerTgId nick amount w with
  | (inl _, w') => w' = w
  | (inr r, w') =>
    if applied r then
      exists ref u u',
        referrerTgId r = Some ref /\ ref <> payerTgId /\ users w !! ref = Some u /\
        w' = set_users (<[ref := u']> (users w)) w /\
        earned_money u' = earned_money u + rewardAmountUsd r /\ 0 <= rewardAmountUsd r /\
        tg_id u' = tg_id u /\ subscription_untill u' = subscription_untill u /\
        subscription_status u' = subscription_status u /\
        gifts u' = gifts u /\ reffered_by u' = reffered_by u
    else w' = w
  end.
Proof.
  intros Hk. unfold applyReferralRewardForPurchase.
  destruct (amount <=? 0) eqn:Ha; [reflexivity|]. apply Z.leb_gt in Ha.
  destruct (store_up w) eqn:Hup.
  2:{ unfold bind. rewrite getTelegramUserByTgId_down by exact Hup. reflexivity. }
  unfold bind. rewrite (getTelegramUserByTgId_up w payerTgId Hup).
  destruct (users w !! payerTgId) as [payer|] eqn:Hp; [|reflexivity].
  pose proof (Hk _ _ Hp) as Hpk. cbn beta in Hpk.
  destruct (reffered_by payer) as [rb|]; [|reflexivity].
  destruct (bool_decide (ref_tgId rb = tg_id payer)) eqn:Hself; [reflexivity|].
  apply bool_decide_eq_false in Hself.
  rewrite (getTelegramUserByTgId_up w (ref_tgId rb) Hup).
  destruct (users w !! ref_tgId rb) as [referrer|] eqn:Hr; [|reflexivity].
  pose proof (Hk _ _ Hr) as Hrk. cbn beta in Hrk.
  unfold update_where, store_guard. rewrite Hup.
  rewrite Hrk, Hr. unfold ret. simpl.
  eexists (ref_tgId rb), referrer, _.
  split; [reflexivity|]. split; [congruence|]. split; [exact Hr|].
  split; [reflexivity|]. cbn. split; [lia|]. split.
  { apply mathRound_nonneg; [|lia]. apply Z.mul_nonneg_nonneg; [lia|].
    destruct (_ =? 0); lia. }
  repeat split.
Qed.

Lemma applyReferralReward_footprint_witness :
  users_keyed sample_world /\
  match applyReferralRewardForPurchase "200" None 199 sample_world with
  | (inl _, w') => w' = sample_world
  | (inr r, w') =>
    if applied r then
      exists ref u u',
        referrerTgId r = Some ref /\ ref <> "200"%string /\ users sample_world !! ref = Some u /\
        w' = set_users (<[ref := u']> (users sample_world)) sample_world /\
        earned_money u' = earned_money u + rewardAmountUsd r /\ 0 <= rewardAmountUsd r /\
        tg_id u' = tg_id u /\ subscription_untill u' = subscription_untill u /\
        subscription_status u' = subscription_status u /\
        gifts u' = gifts u /\ reffered_by u' = reffered_by u
    else w' = sample_world
  end.
Proof.
  assert (Hk : users_keyed sample_world) by (unfold users_keyed; apply (bool_decide_unpack _); vm_compute; exact I).
  exact (conj Hk (applyReferralReward_footprint sample_world "200" None 199 Hk)).
Defined.

Lemma fromBalancePrepare_plan_nonneg (w : world) (tgId : string) (nick : option string)
    (months amountUsd : Z) (p : balance_plan) (w' : world) :
  fromBalancePrepare tgId nick months amountUsd w = (inr p, w') -> 0 <= planned_earned_money p.
Proof.
  unfold fromBalancePrepare.
  destruct (months <=? 0); [unfold throw; congruence|].
  destruct (amountUsd <=? 0); [unfold throw; congruence|].
  unfold bind. destruct (ensureTelegramUser tgId nick None w) as [[e|[u b]] w1]; [congruence|].
  cbn [fst]. destruct (earned_money u - amountUsd <? 0) eqn:E; [unfold throw; congruence|].
  unfold get_world, ret. intros H. injection H as <- _. cbn. lia.
Qed.

Lemma fromBalanceCommit_writes (w : world) (tgId : string) (amountUsd : Z) (p : balance_plan)
    (row : user_row) (w' : world) :
  fromBalanceCommit tgId amountUsd p w = (inr row, w') ->
  users w' !! tgId = Some row /\ earned_money row = planned_earned_money p.
Proof.
  unfold fromBalanceCommit, bind, update_maybe, store_guard.
  destruct (store_up w); [|congruence].
  destruct (users w !! tgId) as [u|]; [|unfold throw; congruence].
  destruct (amountUsd <=? earned_money u); [|unfold throw; congruence].
  unfold ret. intros H. injection H as <- <-.
  destruct (set_users_fields w (<[tgId := set_earned_money (planned_earned_money p)
              (set_subscription true (Some live) (Some (planned_until p)) u)]> (users w)))
    as (-> & _). rewrite lookup_insert_eq. split; reflexivity.
Qed.

(** A purchase from the referral balance never stores a negative balance,
    whatever writes happen between its read and its write: when the read half
    succeeds on some state and the write half then succeeds on any later
    state, the stored row is the returned row and its balance is the planned
    one, which is not negative. *)
Theorem fromBalance_stored_balance_nonneg (w0 w1 : world) (tgId : string)
    (nick : option string) (months amountUsd : Z) (p : balance_plan) (w0' : world)
    (row : user_row) (w2 : world) :
  fromBalancePrepare tgId nick months amountUsd w0 = (inr p, w0') ->
  fromBalanceCommit tgId amountUsd p w1 = (inr row, w2) ->
  users w2 !! tgId = Some row /\ earned_money row = planned_earned_money p /\
  0 <= earned_money row.
Proof.
  intros Hp Hc. destruct (fromBalanceCommit_writes w1 tgId amountUsd p row w2 Hc) as [Hl He].
  pose proof (fromBalancePrepare_plan_nonneg w0 tgId nick months amountUsd p w0' Hp).
  split; [exact Hl|]. split; [exact He|]. lia.
Qed.

(** The plan of a purchase of 2.00 by user "100" (balance 5.00). *)
Definition sample_balance_plan : balance_plan :=
  {| planned_until := addMonths (extension_base 20300 None) 1; planned_earned_money := 300 |}.

(** The row written when the plan is committed on the state after an
    interleaved purchase of 1.00 by the same user. *)
Definition sample_committed_row : user_row :=
  set_earned_money 300 (set_subscription true (Some live) (Some (addMonths 20300 1)) referrer_row).

Definition sample_interleaved_world : world :=
  set_users (<["100"%string := set_earned_money 400 referrer_row]> (users sample_world)) sample_world.

Lemma fromBalance_stored_balance_nonneg_witness :
  (fromBalancePrepare "100" None 1 200 sample_world =
     (inr sample_balance_plan,
      set_users (<["100"%string := referrer_row]> (users sample_world)) sample_world) /\
   fromBalanceCommit "100" 200 sample_balance_plan sample_interleaved_world =
     (inr sample_committed_row,
      set_users (<["100"%string := sample_committed_row]> (users sample_interleaved_world))
        sample_interleaved_world)) /\
  users (set_users (<["100"%string := sample_committed_row]> (users sample_interleaved_world))
           sample_interleaved_world) !! "100"%string = Some sample_committed_row /\
  earned_money sample_committed_row = planned_earned_money sample_balance_plan /\
  0 <= earned_money sample_committed_row.
Proof.
  assert (H1 : fromBalancePrepare "100" None 1 200 sample_world =
     (inr sample_balance_plan,
      set_users (<["100"%string := referrer_row]> (users sample_world)) sample_world))
    by (vm_compute; reflexivity).
  assert (H2 : fromBalanceCommit "100" 200 sample_balance_plan sample_interleaved_world =
     (inr sample_committed_row,
      set_users (<["100"%string := sample_committed_row]> (users sample_interleaved_world))
        sample_interleaved_world))
    by (vm_compute; reflexivity).
  exact (conj (conj H1 H2) (fromBalance_stored_balance_nonneg _ _ _ _ _ _ _ _ _ _ H1 H2)).
Defined.

(** ** Menu status *)

(** The status shown on the main menu is never "unknown", and it is
    "expired" exactly when the server browsing refuses the user. *)
Theorem menu_status_expired_iff_no_access (u : user_row) :
  mapTelegramUserToMenuSubscriptionStatus u <> status_unknown /\
  (mapTelegramUserToMenuSubscriptionStatus u = status_expired <->
   user_has_servers_access (Some u) = false).
Proof.
  unfold mapTelegramUserToMenuSubscriptionStatus; cbn [user_has_servers_access].
  unfold hasAccessToServers.
  destruct (subscription_status u) as [[]|], (subscription_active u);
    repeat first [rewrite bool_decide_eq_true_2 by reflexivity
                 | rewrite bool_decide_eq_false_2 by discriminate];
    cbn; split; try discriminate; split; congruence.
Qed.

(** ** Webhook secret *)

(** [requireTelegramSecret] answers 500 when [TG_SECRET] is unset or empty,
    whatever the headers; otherwise it lets the request through exactly when
    [x-telegram-secret] equals the secret, or is absent and
    [x-telegram-bot-api-secret-token] equals it, and answers 401 in every
    other case: a present but wrong [x-telegram-secret] is refused even with
    a correct bot-api token. *)
Theorem requireTelegramSecret_outcomes (expected h1 h2 : option chars) :
  ((expected = None \/ expected = Some []) ->
     exists body, requireTelegramSecret expected h1 h2 = MiddlewareRespond (Respond 500 body)) /\
  (requireTelegramSecret expected h1 h2 = MiddlewareNext <->
     exists s, expected = Some s /\ s <> [] /\ (h1 = Some s \/ (h1 = None /\ h2 = Some s))) /\
  (forall s, expected = Some s -> s <> [] ->
     requireTelegramSecret expected h1 h2 = MiddlewareNext \/
     exists body, requireTelegramSecret expected h1 h2 = MiddlewareRespond (Respond 401 body)).
Proof.
  split; [|split].
  - intros [-> | ->]; eexists; reflexivity.
  - unfold requireTelegramSecret. destruct expected as [[|c s]|].
    + split; [discriminate|]. intros (s & Hs & Hne & _). injection Hs as <-. contradiction.
    + destruct (decide (coalesce h1 h2 = Some (c :: s))) as [E|E];
        [rewrite bool_decide_eq_true_2 by exact E | rewrite bool_decide_eq_false_2 by exact E]; cbn.
      * split; [intros _|reflexivity].
        exists (c :: s). split; [reflexivity|]. split; [discriminate|].
        destruct h1; cbn in E; [left; exact E|right; split; [reflexivity|exact E]].
      * split; [discriminate|].
        intros (s' & Hs & _ & Hh). injection Hs as <-. exfalso. apply E.
        destruct Hh as [-> | [-> ->]]; reflexivity.
    + split; [discriminate|]. intros (s & Hs & _). discriminate.
  - intros s -> Hne. unfold requireTelegramSecret. destruct s as [|c s]; [contradiction|].
    destruct (decide (coalesce h1 h2 = Some (c :: s))) as [E|E];
      [rewrite bool_decide_eq_true_2 by exact E | rewrite bool_decide_eq_false_2 by exact E];
      cbn; [left; reflexivity|].
    right. eexists. reflexivity.
Qed.

(** ** The [/start ref_<id>] link *)

Lemma is_tg_id_text_digits (x : chars) :
  is_tg_id_text x = true -> x <> [] /\ forallb is_digit x = true /\ (length x <= 20)%nat.
Proof.
  destruct x as [|c r]; cbn [is_tg_id_text]; [discriminate|].
  rewrite !andb_true_iff, Nat.leb_le, !Z.leb_le. intros [[[H1 H2] Hr] Hl].
  split; [discriminate|]. split; [|cbn; lia].
  cbn [forallb]. rewrite Hr, andb_true_r. unfold is_digit. apply andb_true_iff.
  split; apply Z.leb_le; lia.
Qed.

Lemma digit_not_space (c : ascii) : is_digit c = true -> is_js_space c = false.
Proof.
  intros H. apply is_digit_code in H. unfold is_js_space.
  replace (code c <=? 13) with false by (symmetry; apply Z.leb_gt; lia).
  replace (code c =? 32) with false by (symmetry; apply Z.eqb_neq; lia).
  replace (code c =? 160) with false by (symmetry; apply Z.eqb_neq; lia).
  rewrite andb_false_r. reflexivity.
Qed.

Lemma trim_id (c d : ascii) (r : chars) :
  is_js_space c = false -> is_js_space d = false -> trim (c :: r ++ [d]) = c :: r ++ [d].
Proof.
  intros Hc Hd. unfold trim. cbn [drop_spaces]. rewrite Hc. cbv iota.
  change (c :: r ++ [d]) with ((c :: r) ++ [d]). rewrite rev_app_distr.
  change (rev [d]) with [d]. cbn [app drop_spaces].
  rewrite Hd. cbv iota. change (d :: rev (c :: r)) with ([d] ++ rev (c :: r)).
  rewrite rev_app_distr, rev_involutive. reflexivity.
Qed.

Lemma split_tokens_word (s r cur : chars) :
  forallb (fun c => negb (is_js_space c)) s = true ->
  split_tokens (s ++ r) cur = split_tokens r (rev s ++ cur).
Proof.
  revert cur. induction s as [|c s IH]; intros cur Hs; [reflexivity|].
  cbn [forallb] in Hs. apply andb_true_iff in Hs as [Hc Hs]. apply negb_true_iff in Hc.
  cbn [app split_tokens]. rewrite Hc, IH by exact Hs. cbn [rev]. rewrite <- app_assoc. reflexivity.
Qed.

Lemma forallb_digit_not_space (x : chars) :
  forallb is_digit x = true -> forallb (fun c => negb (is_js_space c)) x = true.
Proof.
  induction x as [|c x IH]; [reflexivity|]. cbn [forallb]. rewrite !andb_true_iff.
  intros [Hc Hx]. rewrite digit_not_space by exact Hc. split; [reflexivity|apply IH, Hx].
Qed.

Lemma strip_prefix_app (p s : chars) : strip_prefix p (p ++ s) = Some s.
Proof. induction p as [|c p IH]; cbn; [reflexivity|]. rewrite Ascii.eqb_refl. exact IH. Qed.

(** The parse of the text Telegram sends for the link
    [https://t.me/<bot>?start=ref_<id>]. *)
Lemma getTelegramCommand_start_ref (bot : option chars) (x : chars) :
  is_tg_id_text x = true ->
  getTelegramCommand (Some (txt "/start ref_" ++ x)) bot =
    {| command := Some (txt "/start"); argument := Some (txt "ref_" ++ x);
       isSuspicious := false; reason := None |}.
Proof.
  intros Hx. destruct (is_tg_id_text_digits x Hx) as (Hne & Hd & Hl).
  destruct (exists_last Hne) as (x' & d & ->).
  assert (Hdd : is_digit d = true).
  { rewrite forallb_app in Hd. apply andb_true_iff in Hd as [_ Hd]. cbn in Hd.
    rewrite andb_true_r in Hd. exact Hd. }
  assert (Htrim : trim (txt "/start ref_" ++ x' ++ [d]) = txt "/start ref_" ++ x' ++ [d]).
  { change (txt "/start ref_" ++ x' ++ [d])
      with ("/"%char :: (txt "start ref_" ++ x') ++ [d]).
    rewrite (trim_id "/"%char d) by (first [reflexivity | apply digit_not_space, Hdd]).
    rewrite <- app_assoc. reflexivity. }
  assert (Htok : split_tokens (txt "/start ref_" ++ x' ++ [d]) []
                 = [txt "/start"; txt "ref_" ++ x' ++ [d]]).
  { change (txt "/start ref_" ++ x' ++ [d])
      with (txt "/start" ++ " "%char :: (txt "ref_" ++ x' ++ [d])).
    rewrite split_tokens_word by reflexivity. cbn [split_tokens].
    replace (is_js_space " "%char) with true by reflexivity.
    rewrite bool_decide_eq_false_2 by discriminate. cbn [app].
    rewrite <- (app_nil_r (txt "ref_" ++ x' ++ [d])) at 1.
    rewrite split_tokens_word.
    2:{ rewrite forallb_app. apply andb_true_iff. split; [reflexivity|].
        apply forallb_digit_not_space, Hd. }
    cbn [split_tokens]. rewrite app_nil_r.
    rewrite bool_decide_eq_false_2.
    2:{ rewrite rev_app_distr. destruct (rev (x' ++ [d])); discriminate. }
    rewrite ?app_nil_r, !rev_involutive. reflexivity. }
  unfold getTelegramCommand. rewrite Htrim.
  change (txt "/start ref_" ++ x' ++ [d]) with ("/"%char :: txt "start ref_" ++ x' ++ [d]) at 1.
  cbv beta iota zeta. rewrite Ascii.eqb_refl. cbn [negb].
  change (length (txt "/start ref_" ++ x' ++ [d])) with (11 + length (x' ++ [d]))%nat.
  replace (128 <? 11 + length (x' ++ [d]))%nat with false by (symmetry; apply Nat.ltb_ge; lia).
  rewrite Htok. cbn [head default length].
  match goal with |- context [command_match ?t] =>
    replace (command_match t) with (Some (txt "start", @None chars)) by reflexivity end.
  cbv beta iota.
  change (toLowerCase (default [] (@None chars))) with (@nil ascii).
  rewrite bool_decide_eq_true_2 by reflexivity.
  cbn [negb andb Nat.ltb Nat.leb Nat.eqb].
  change ([txt "/start"; txt "ref_" ++ x' ++ [d]] !! 1%nat) with (Some (txt "ref_" ++ x' ++ [d])).
  cbv beta iota.
  rewrite bool_decide_eq_true_2 by reflexivity. cbn [negb].
  unfold is_ref_argument. rewrite strip_prefix_app, Hx. reflexivity.
Qed.

Lemma js_int_to_string_inj (n m : Z) :
  0 < n < 10 ^ 20 -> 0 < m < 10 ^ 20 -> js_int_to_string n = js_int_to_string m -> n = m.
Proof.
  intros Hn Hm. unfold js_int_to_string.
  replace (n <? 0) with false by lia. replace (m <? 0) with false by lia.
  rewrite (Z.abs_eq n), (Z.abs_eq m) by lia.
  replace (n <? 10 ^ 21) with true by lia. replace (m <? 10 ^ 21) with true by lia.
  cbn [app]. intros H.
  destruct (decimal_spec n ltac:(lia)) as (_ & _ & _ & _ & Hvn & _).
  destruct (decimal_spec m ltac:(lia)) as (_ & _ & _ & _ & Hvm & _).
  rewrite <- Hvn, <- Hvm, H. reflexivity.
Qed.

Lemma resolveReferredBy_no_write (fromId : Z) (a : option chars) (w : world) :
  exists rb, resolveReferredBy fromId a w = (inr rb, w).
Proof.
  unfold resolveReferredBy. destruct a as [a|]; [|eexists; reflexivity].
  destruct (bool_decide (strip_ref a = js_int_to_string fromId)); [eexists; reflexivity|].
  unfold catch, bind. destruct (store_up w) eqn:Hup.
  - rewrite getTelegramUserByTgId_up by exact Hup. unfold get_world.
    destruct (users w !! _); eexists; reflexivity.
  - rewrite getTelegramUserByTgId_down by exact Hup. eexists; reflexivity.
Qed.

(** A new user who opens the referral link of a registered user: the
    command parser accepts [/start ref_<referrer id>] with the argument, and
    the message branch creates the user's row (with [created = true]) whose
    [reffered_by] names the referrer, with the referrer's nickname and
    today's date. *)
Theorem start_referral_link_registers_referrer (w : world) (bot : option chars)
    (refId fromId : Z) (username : option string) (referrer : user_row) :
  0 < refId < 10 ^ 20 -> 0 < fromId < 10 ^ 20 -> refId <> fromId ->
  store_up w = true -> users_keyed w ->
  users w !! String_of_id refId = Some referrer -> users w !! String_of_id fromId = None ->
  let parsed := getTelegramCommand (Some (txt "/start ref_" ++ js_int_to_string refId)) bot in
  parsed = {| command := Some (txt "/start"); argument := Some (txt "ref_" ++ js_int_to_string refId);
              isSuspicious := false; reason := None |} /\
  exists row w',
    messageUserSync parsed fromId username w = (inr (Some (row, true)), w') /\
    users w' !! String_of_id fromId = Some row /\
    reffered_by row = Some {| ref_tgId := String_of_id refId; ref_tgNickname := tg_nickname referrer;
                              referDate := today w |}.
Proof.
  intros Href Hfrom Hne Hup Hk Hr Hn parsed.
  assert (Hp : parsed = {| command := Some (txt "/start");
                           argument := Some (txt "ref_" ++ js_int_to_string refId);
                           isSuspicious := false; reason := None |})
    by (apply getTelegramCommand_start_ref, is_tg_id_text_js_int, Href).
  split; [exact Hp|]. rewrite Hp. clear Hp parsed.
  pose proof (Hk _ _ Hr) as Hrk. cbn beta in Hrk.
  unfold messageUserSync. cbn [command argument].
  rewrite bool_decide_eq_true_2 by reflexivity.
  assert (Hres : resolveReferredBy fromId (Some (txt "ref_" ++ js_int_to_string refId)) w =
                 (inr (Some {| ref_tgId := String_of_id refId; ref_tgNickname := tg_nickname referrer;
                               referDate := today w |}), w)).
  { unfold resolveReferredBy, strip_ref. rewrite strip_prefix_app.
    rewrite bool_decide_eq_false_2.
    2:{ intros He. apply Hne. exact (js_int_to_string_inj _ _ Href Hfrom He). }
    unfold catch, bind. rewrite getTelegramUserByTgId_up by exact Hup.
    change (String.string_of_list_ascii (js_int_to_string refId)) with (String_of_id refId).
    rewrite Hr. unfold get_world, ret. rewrite Hrk. reflexivity. }
  unfold bind at 1. rewrite Hres.
  unfold catch, bind. rewrite ensureTelegramUser_new by assumption. unfold ret.
  eexists _, _. split; [reflexivity|].
  destruct (set_users_fields w (<[String_of_id fromId := new_user_row (String_of_id fromId) username
                                  (addDays (today w) 3)
                                  (Some {| ref_tgId := String_of_id refId;
                                           ref_tgNickname := tg_nickname referrer;
                                           referDate := today w |})]> (users w))) as (-> & _).
  rewrite lookup_insert_eq. split; reflexivity.
Qed.

(** User "100" is registered; user "300" opens the link of "100". *)
Lemma start_referral_link_registers_referrer_witness :
  (0 < 100 < 10 ^ 20 /\ 0 < 300 < 10 ^ 20 /\ 100 <> 300 /\ store_up sample_world = true /\
   users_keyed sample_world /\ users sample_world !! String_of_id 100 = Some referrer_row /\
   users sample_world !! String_of_id 300 = None) /\
  let parsed := getTelegramCommand (Some (txt "/start ref_" ++ js_int_to_string 100)) None in
  parsed = {| command := Some (txt "/start"); argument := Some (txt "ref_" ++ js_int_to_string 100);
              isSuspicious := false; reason := None |} /\
  exists row w',
    messageUserSync parsed 300 (Some "newbie"%string) sample_world = (inr (Some (row, true)), w') /\
    users w' !! String_of_id 300 = Some row /\
    reffered_by row = Some {| ref_tgId := String_of_id 100; ref_tgNickname := tg_nickname referrer_row;
                              referDate := today sample_world |}.
Proof.
  assert (Hk : users_keyed sample_world)
    by (unfold users_keyed; apply (bool_decide_unpack _); vm_compute; exact I).
  assert (Hr : users sample_world !! String_of_id 100 = Some referrer_row) by (vm_compute; reflexivity).
  assert (Hn : users sample_world !! String_of_id 300 = None) by (vm_compute; reflexivity).
  split; [repeat split; first [lia | reflexivity | assumption]|].
  exact (start_referral_link_registers_referrer sample_world None 100 300 (Some "newbie"%string)
           referrer_row ltac:(lia) ltac:(lia) ltac:(lia) eq_refl Hk Hr Hn).
Defined.

(** The message branch never changes the referrer of a user: for a user
    already stored, whatever the command and its argument, it returns the
    stored row (nickname refreshed) with [created = false], its referrer,
    subscription and balance unchanged, and writes no other row; and a new
    user's own link [/start ref_<own id>] creates a row without referrer. *)
Theorem messageUserSync_referrer_kept (w : world) (parsed : ParsedTelegramCommand)
    (fromId : Z) (username : option string) :
  store_up w = true ->
  (forall u, users w !! String_of_id fromId = Some u ->
     exists row, messageUserSync parsed fromId username w =
                   (inr (Some (row, false)), set_users (<[String_of_id fromId := row]> (users w)) w) /\
       reffered_by row = reffered_by u /\ subscription_untill row = subscription_untill u /\
       earned_money row = earned_money u /\ gifts row = gifts u) /\
  (argument parsed = Some (txt "ref_" ++ js_int_to_string fromId) ->
   users w !! String_of_id fromId = None ->
     exists row w', messageUserSync parsed fromId username w = (inr (Some (row, true)), w') /\
       users w' !! String_of_id fromId = Some row /\ reffered_by row = None).
Proof.
  intros Hup. unfold messageUserSync.
  set (a := if bool_decide (command parsed = Some (txt "/start")) then argument parsed else None).
  split.
  - intros u Hu. destruct (resolveReferredBy_no_write fromId a w) as [rb Hrb].
    unfold bind at 1. rewrite Hrb. unfold catch, bind.
    rewrite (ensureTelegramUser_existing w _ username rb u Hup Hu). unfold ret.
    eexists. split; [reflexivity|].
    destruct (ensure_existing_row_fields username u) as (H1 & H2 & H3 & H4 & _).
    destruct (ensure_existing_row username u) eqn:E; cbn in *.
    split; [exact H4|]. split; [exact H1|]. split; [exact H2|exact H3].
  - intros Harg Hn.
    assert (Hrb : resolveReferredBy fromId a w = (inr None, w)).
    { unfold a. destruct (bool_decide (command parsed = Some (txt "/start"))); [|reflexivity].
      rewrite Harg. unfold resolveReferredBy, strip_ref. rewrite strip_prefix_app.
      rewrite bool_decide_eq_true_2 by reflexivity. reflexivity. }
    unfold bind at 1. rewrite Hrb. unfold catch, bind.
    rewrite ensureTelegramUser_new by assumption. unfold ret.
    eexists _, _. split; [reflexivity|].
    destruct (set_users_fields w (<[String_of_id fromId := new_user_row (String_of_id fromId) username
                                    (addDays (today w) 3) None]> (users w))) as (-> & _).
    rewrite lookup_insert_eq. split; reflexivity.
Qed.

Lemma messageUserSync_referrer_kept_witness :
  store_up sample_world = true /\
  ((forall u, users sample_world !! String_of_id 200 = Some u ->
     exists row, messageUserSync (getTelegramCommand (Some (txt "/start ref_100")) None) 200
                   (Some "payer"%string) sample_world =
                   (inr (Some (row, false)),
                    set_users (<[String_of_id 200 := row]> (users sample_world)) sample_world) /\
       reffered_by row = reffered_by u /\ subscription_untill row = subscription_untill u /\
       earned_money row = earned_money u /\ gifts row = gifts u) /\
   (argument (getTelegramCommand (Some (txt "/start ref_100")) None) =
      Some (txt "ref_" ++ js_int_to_string 200) ->
    users sample_world !! String_of_id 200 = None ->
     exists row w', messageUserSync (getTelegramCommand (Some (txt "/start ref_100")) None) 200
                      (Some "payer"%string) sample_world = (inr (Some (row, true)), w') /\
       users w' !! String_of_id 200 = Some row /\ reffered_by row = None)).
Proof.
  split; [reflexivity|].
  exact (messageUserSync_referrer_kept sample_world _ 200 (Some "payer"%string) eq_refl).
Defined.

(** ** Callback data *)

Ltac neq_text := let H := fresh in intros H; cbn in H; discriminate H.

Lemma js_int_to_string_small (m : Z) : 0 <= m < 10 ^ 21 -> js_int_to_string m = decimal m.
Proof.
  intros Hm. unfold js_int_to_string. replace (m <? 0) with false by lia.
  rewrite Z.abs_eq by lia. replace (m <? 10 ^ 21) with true by lia. reflexivity.
Qed.

(** [Number.parseInt] of printed digits followed by a character that is not
    a digit, or by nothing. *)
Lemma parseInt10_decimal (m : Z) (rest : chars) :
  0 <= m -> (match rest with c :: _ => is_digit c = false | [] => True end) ->
  parseInt10 (decimal m ++ rest) = Some m.
Proof.
  intros Hm Hr. destruct (decimal_spec m Hm) as (d & ds & Hdec & Hall & Hv & _).
  rewrite Hdec in Hall, Hv |- *. pose proof (Forall_inv Hall) as Hd. unfold parseInt10.
  cbn [app drop_spaces]. rewrite digit_not_space by exact Hd. cbv iota.
  destruct (eqb_digit_nondigit d "-"%char Hd eq_refl) as [-> _].
  destruct (eqb_digit_nondigit d "+"%char Hd eq_refl) as [-> _]. cbv iota.
  change (d :: ds ++ rest) with ((d :: ds) ++ rest).
  rewrite take_digits_app by assumption. cbv iota. rewrite Hv. f_equal. lia.
Qed.



Lemma split_colon_word (s r cur : chars) :
  forallb (fun c => negb (Ascii.eqb c ":"%char)) s = true ->
  split_colon (s ++ r) cur = split_colon r (rev s ++ cur).
Proof.
  revert cur. induction s as [|c s IH]; intros cur Hs; [reflexivity|].
  cbn [forallb] in Hs. apply andb_true_iff in Hs as [Hc Hs]. apply negb_true_iff in Hc.
  cbn [app split_colon]. rewrite Hc, IH by exact Hs. cbn [rev]. rewrite <- app_assoc. reflexivity.
Qed.

Lemma split_colon_nonempty (s cur : chars) : split_colon s cur <> [].
Proof.
  revert cur. induction s as [|c s IH]; intros cur; cbn [split_colon]; [discriminate|].
  destruct (Ascii.eqb c ":"%char); [discriminate|apply IH].
Qed.

Lemma digits_no_colon (s : chars) :
  forallb is_digit s = true -> forallb (fun c => negb (Ascii.eqb c ":"%char)) s = true.
Proof.
  induction s as [|c s IH]; [reflexivity|]. cbn [forallb]. rewrite !andb_true_iff.
  intros [Hc Hs]. destruct (eqb_digit_nondigit c ":"%char Hc eq_refl) as [-> _].
  split; [reflexivity|apply IH, Hs].
Qed.

Lemma decimal_forallb (m : Z) : 0 <= m -> forallb is_digit (decimal m) = true.
Proof.
  intros Hm. destruct (decimal_spec m Hm) as (d & ds & _ & Hall & _).
  apply forallb_forall. intros x Hx. rewrite List.Forall_forall in Hall. apply Hall, Hx.
Qed.





(** ** Tracked chat messages *)

Lemma untrackMessageId_same (c m : Z) (t : tracker) :
  untrackMessageId c m t !! c =
  match filter (fun x => x <> m) (default [] (t !! c)) with [] => None | l => Some l end.
Proof.
  unfold untrackMessageId. destruct (t !! c) as [ids|] eqn:Ht; [|now rewrite Ht].
  change (default [] (Some ids)) with ids.
  destruct (filter _ ids) as [|x l] eqn:Hf.
  - now rewrite lookup_delete_eq.
  - now rewrite lookup_insert_eq.
Qed.

Lemma untrackMessageId_other (c c' m : Z) (t : tracker) :
  c' <> c -> untrackMessageId c m t !! c' = t !! c'.
Proof.
  intros Hne. unfold untrackMessageId. destruct (t !! c); [|reflexivity].
  destruct (filter _ _).
  - now rewrite lookup_delete_ne by congruence.
  - now rewrite lookup_insert_ne by congruence.
Qed.

Lemma trackMessageId_other (c c' m : Z) (t : tracker) :
  c' <> c -> trackMessageId c m t !! c' = t !! c'.
Proof.
  intros Hne. unfold trackMessageId.
  destruct (bool_decide _); [reflexivity|].
  now rewrite lookup_insert_ne by congruence.
Qed.

Lemma default_untrack (c m : Z) (t : tracker) :
  default [] (untrackMessageId c m t !! c) = filter (fun x => x <> m) (default [] (t !! c)).
Proof. rewrite untrackMessageId_same. now destruct (filter _ _). Qed.

Lemma untrack_not_empty (c m : Z) (t : tracker) :
  untrackMessageId c m t !! c <> Some [].
Proof. rewrite untrackMessageId_same. now destruct (filter _ _). Qed.

Lemma filter_in_ext {A} (P Q : A -> Prop) `{!forall x, Decision (P x), !forall x, Decision (Q x)}
    (l : list A) :
  (forall x, x ∈ l -> (P x <-> Q x)) -> filter P l = filter Q l.
Proof.
  induction l as [|a l IH]; intros Hpq; [reflexivity|].
  rewrite !filter_cons.
  assert (IH' : filter P l = filter Q l) by (apply IH; intros x Hx; apply Hpq; now right).
  rewrite IH'. destruct (decide (P a)) as [Ha|Ha], (decide (Q a)) as [Hb|Hb];
    try reflexivity; exfalso; pose proof (Hpq a ltac:(left)); tauto.
Qed.

Lemma filter_nil_forall {A} (P : A -> Prop) `{!forall x, Decision (P x)} (l : list A) :
  filter P l = [] <-> (forall x, x ∈ l -> ~ P x).
Proof.
  induction l as [|a l IH].
  - split; [intros _ x Hx; inversion Hx | reflexivity].
  - rewrite filter_cons. destruct (decide (P a)) as [Ha|Ha].
    + split; [discriminate|]. intros Hn. exfalso. exact (Hn a ltac:(left) Ha).
    + rewrite IH. split; intros Hn x Hx.
      * apply elem_of_cons in Hx as [->|Hx]; [exact Ha|exact (Hn x Hx)].
      * apply Hn. now right.
Qed.

Lemma filter_all {A} (P : A -> Prop) `{!forall x, Decision (P x)} (l : list A) :
  (forall x, x ∈ l -> P x) -> filter P l = l.
Proof.
  induction l as [|a l IH]; intros Hall; [reflexivity|].
  rewrite filter_cons_True by (apply Hall; left).
  f_equal. apply IH. intros x Hx. apply Hall. now right.
Qed.

(** The [for] loop of [clearTrackedTelegramChatHistory] when no request
    raises: one count per answer, and the ok ones untracked. *)
Lemma delete_each_spec (api : Z -> transport_state) (c : Z) (ids : list Z) :
  forall d f t,
  (forall x, x ∈ ids -> api x <> transport_unreachable) ->
  exists t',
    delete_each api c ids d f t =
      (Some (d + Z.of_nat (length (filter (fun x => transport_ok (api x) = true) ids)),
             f + Z.of_nat (length (filter (fun x => transport_ok (api x) = false) ids))), t') /\
    default [] (t' !! c) =
      filter (fun x => x ∉ filter (fun x => transport_ok (api x) = true) ids) (default [] (t !! c)) /\
    (t !! c <> Some [] -> t' !! c <> Some []) /\
    (forall c', c' <> c -> t' !! c' = t !! c').
Proof.
  induction ids as [|m rest IH]; intros d f t Hnu.
  - exists t. cbn. rewrite !Z.add_0_r. split; [reflexivity|].
    split; [|tauto]. symmetry. apply filter_all. intros x _ Hx. inversion Hx.
  - assert (Hrest : forall x, x ∈ rest -> api x <> transport_unreachable)
      by (intros x Hx; apply Hnu; now right).
    cbn [delete_each]. unfold deleteTelegramMessage.
    destruct (api m) eqn:Ha.
    + destruct (IH (d + 1) f (untrackMessageId c m t) Hrest) as (t' & Hrun & Hdef & Hne & Hoth).
      exists t'. rewrite Hrun.
      rewrite (filter_cons_True (fun x => transport_ok (api x) = true)) by (now rewrite Ha).
      rewrite (filter_cons_False (fun x => transport_ok (api x) = false)) by (now rewrite Ha).
      split; [apply (f_equal (fun p => (Some p, t'))); f_equal; cbn [length]; lia|].
      split; [|split].
      * rewrite Hdef, default_untrack, list_filter_filter.
        apply list_filter_iff. intros x. rewrite elem_of_cons. tauto.
      * intros _. apply Hne, untrack_not_empty.
      * intros c' Hc'. rewrite Hoth by exact Hc'. now apply untrackMessageId_other.
    + destruct (IH d (f + 1) t Hrest) as (t' & Hrun & Hdef & Hne & Hoth).
      exists t'. rewrite Hrun.
      rewrite (filter_cons_False (fun x => transport_ok (api x) = true)) by (now rewrite Ha).
      rewrite (filter_cons_True (fun x => transport_ok (api x) = false)) by (now rewrite Ha).
      split; [apply (f_equal (fun p => (Some p, t'))); f_equal; cbn [length]; lia|].
      split; [exact Hdef|split; [exact Hne|exact Hoth]].
    + exfalso. exact (Hnu m ltac:(left) Ha).
Qed.

Lemma delete_each_raises (api : Z -> transport_state) (c : Z) (ids : list Z) :
  forall d f t x, x ∈ ids -> api x = transport_unreachable ->
  fst (delete_each api c ids d f t) = None.
Proof.
  induction ids as [|m rest IH]; intros d f t x Hx Hu; [inversion Hx|].
  cbn [delete_each]. unfold deleteTelegramMessage.
  apply elem_of_cons in Hx as [->|Hx].
  - now rewrite Hu.
  - destruct (api m); [apply (IH _ _ _ x Hx Hu)..|reflexivity].
Qed.

Lemma sort_desc_Permutation (ids : list Z) : sort_desc ids ≡ₚ ids.
Proof. unfold sort_desc. apply merge_sort_Permutation. Qed.

Lemma tracker_ok_chat (t : tracker) (c : Z) :
  tracker_ok t ->
  NoDup (default [] (t !! c)) /\ (length (default [] (t !! c)) <= maxTrackedMessagesPerChat)%nat /\
  (default [] (t !! c) <> [] -> t !! c = Some (default [] (t !! c))).
Proof.
  intros Hok. destruct (t !! c) as [ids|] eqn:Ht.
  - destruct (map_Forall_lookup_1 _ _ _ _ Hok Ht) as (_ & Hnd & Hlen). now split; [|split].
  - cbn. split; [constructor|]. split; [unfold maxTrackedMessagesPerChat; lia|]. tauto.
Qed.

(** [trackMessageId] keeps, per chat, the [maxTrackedMessagesPerChat] most
    recently tracked distinct ids, oldest first; [untrackMessageId] removes
    one id and drops the chat once its list is empty.  Both keep every
    list non-empty, without repeats and at most 500 long, and touch no other
    chat. *)
Theorem track_untrack_window (c m : Z) (t : tracker) :
  tracker_ok t ->
  let ids := default [] (t !! c) in
  trackMessageId c m t !! c =
    Some (if bool_decide (m ∈ ids) then ids
          else if (length ids <? maxTrackedMessagesPerChat)%nat then ids ++ [m]
               else tail ids ++ [m]) /\
  untrackMessageId c m t !! c =
    (match filter (fun x => x <> m) ids with [] => None | l => Some l end) /\
  tracker_ok (trackMessageId c m t) /\
  tracker_ok (untrackMessageId c m t) /\
  (forall c', c' <> c ->
     trackMessageId c m t !! c' = t !! c' /\ untrackMessageId c m t !! c' = t !! c').
Proof.
  intros Hok ids.
  destruct (tracker_ok_chat t c Hok) as (Hnd & Hlen & Hsome). fold ids in Hnd, Hlen, Hsome.
  split; [|split; [apply untrackMessageId_same|split; [|split]]].
  - unfold trackMessageId. fold ids. destruct (decide (m ∈ ids)) as [Hin|Hin].
    + rewrite !bool_decide_eq_true_2 by exact Hin. apply Hsome.
      intros He. rewrite He in Hin. inversion Hin.
    + rewrite !bool_decide_eq_false_2 by exact Hin. rewrite lookup_insert_eq. f_equal.
      unfold maxTrackedMessagesPerChat in *. rewrite length_app. cbn [length].
      destruct (Nat.ltb_spec 500 (length ids + 1)) as [Hlt|Hge];
        destruct (Nat.ltb_spec (length ids) 500) as [Hlt'|Hge']; try lia.
      * replace (length ids + 1 - 500)%nat with 1%nat by lia.
        destruct ids as [|i rest]; [cbn in Hlt; lia|]. reflexivity.
      * reflexivity.
  - unfold trackMessageId. fold ids. destruct (decide (m ∈ ids)) as [Hin|Hin].
    + rewrite bool_decide_eq_true_2 by exact Hin. exact Hok.
    + rewrite bool_decide_eq_false_2 by exact Hin. apply map_Forall_insert_2; [|exact Hok].
      assert (Hpush : NoDup (ids ++ [m])).
      { apply NoDup_app. split; [exact Hnd|split; [|apply NoDup_singleton]].
        intros x Hx Hxm. apply list_elem_of_singleton in Hxm. subst x. exact (Hin Hx). }
      unfold maxTrackedMessagesPerChat in *. rewrite length_app. cbn [length].
      destruct (Nat.ltb_spec 500 (length ids + 1)) as [Hlt|Hge].
      * replace (length ids + 1 - 500)%nat with 1%nat by lia.
        destruct ids as [|i rest]; [cbn in Hlt; lia|]. cbn [app drop].
        split; [intros He; destruct rest; discriminate|].
        split; [exact (NoDup_cons_1_2 _ _ Hpush)|].
        rewrite drop_0, length_app. cbn [length] in *. lia.
      * split; [intros He; destruct ids; discriminate|]. split; [exact Hpush|].
        rewrite length_app. cbn [length]. lia.
  - unfold untrackMessageId. destruct (t !! c) as [l|] eqn:Ht; [|exact Hok].
    destruct (map_Forall_lookup_1 _ _ _ _ Hok Ht) as (_ & Hndl & Hlenl).
    destruct (filter (fun x => x <> m) l) as [|y rest] eqn:Hf.
    + now apply map_Forall_delete.
    + apply map_Forall_insert_2; [|exact Hok].
      split; [discriminate|]. rewrite <- Hf.
      split; [now apply NoDup_filter|].
      pose proof (length_filter (fun x => x <> m) l). lia.
  - intros c' Hc'. split; [now apply trackMessageId_other|now apply untrackMessageId_other].
Qed.

(** A chat 5 tracking the messages 1, 2 and 3. *)
Definition sample_tracker : tracker := {[5 := [1; 2; 3]]}.

Lemma track_untrack_window_witness :
  tracker_ok sample_tracker /\
  trackMessageId 5 2 sample_tracker !! 5 = Some [1; 2; 3] /\
  untrackMessageId 5 2 sample_tracker !! 5 = Some [1; 3] /\
  tracker_ok (trackMessageId 5 2 sample_tracker) /\
  tracker_ok (untrackMessageId 5 2 sample_tracker) /\
  (forall c', c' <> 5 ->
     trackMessageId 5 2 sample_tracker !! c' = sample_tracker !! c' /\
     untrackMessageId 5 2 sample_tracker !! c' = sample_tracker !! c').
Proof.
  assert (Hok : tracker_ok sample_tracker).
  { unfold sample_tracker. apply map_Forall_singleton. split; [discriminate|].
    split; [|cbn; unfold maxTrackedMessagesPerChat; lia].
    repeat constructor; set_solver. }
  split; [exact Hok|].
  exact (track_untrack_window 5 2 sample_tracker Hok).
Defined.

(** [clearTrackedTelegramChatHistory], when no [deleteMessage] request
    raises: every tracked id of the chat is attempted once, the ok answers
    are counted as deleted and untracked, the others counted as failed and
    kept in their order; the result is ok exactly when every delete was ok,
    and no other chat is touched. *)
Theorem clearTracked_counts (api : Z -> transport_state) (c : Z) (t : tracker) :
  let ids := default [] (t !! c) in
  (forall x, x ∈ ids -> api x <> transport_unreachable) ->
  exists r t',
    clearTrackedTelegramChatHistory api c t = (Some r, t') /\
    attemptedCount r = Z.of_nat (length ids) /\
    deletedCount r = Z.of_nat (length (filter (fun x => transport_ok (api x) = true) ids)) /\
    failedCount r = Z.of_nat (length (filter (fun x => transport_ok (api x) = false) ids)) /\
    (clear_ok r = true <-> forall x, x ∈ ids -> api x = transport_up) /\
    t' !! c = (match ids with
               | [] => t !! c
               | _ => match filter (fun x => transport_ok (api x) = false) ids with
                      | [] => None
                      | l => Some l
                      end
               end) /\
    (forall c', c' <> c -> t' !! c' = t !! c').
Proof.
  intros ids Hnu. unfold clearTrackedTelegramChatHistory.
  destruct (t !! c) as [l|] eqn:Ht; [destruct l as [|i rest]|].
  - eexists _, t. split; [reflexivity|]. subst ids. cbn.
    split; [reflexivity|]. split; [reflexivity|]. split; [reflexivity|].
    split; [split; [intros _ x Hx; inversion Hx|reflexivity]|].
    split; [exact Ht|tauto].
  - change (default [] (Some (i :: rest))) with (i :: rest) in ids.
    subst ids. set (L := i :: rest) in *.
    pose proof (sort_desc_Permutation L) as Hperm.
    assert (Hnu' : forall x, x ∈ sort_desc L -> api x <> transport_unreachable)
      by (intros x Hx; apply Hnu; now rewrite <- Hperm).
    destruct (delete_each_spec api c (sort_desc L) 0 0 t Hnu') as (t' & Hrun & Hdef & Hne & Hoth).
    rewrite Hrun. eexists _, t'. split; [reflexivity|]. cbn [attemptedCount deletedCount failedCount clear_ok].
    rewrite !Z.add_0_l.
    rewrite (Permutation_length Hperm).
    rewrite (filter_Permutation (fun x => transport_ok (api x) = true) _ _ Hperm).
    rewrite (filter_Permutation (fun x => transport_ok (api x) = false) _ _ Hperm).
    assert (Hrem : default [] (t' !! c) = filter (fun x => transport_ok (api x) = false) L).
    { rewrite Hdef, Ht. change (default [] (Some L)) with L.
      apply filter_in_ext. intros x Hx.
      rewrite list_elem_of_filter, Hperm.
      destruct (transport_ok (api x)); split; intros H.
      - exfalso. apply H. split; [reflexivity|exact Hx].
      - discriminate.
      - reflexivity.
      - intros [Hf _]. discriminate. }
    split; [reflexivity|]. split; [reflexivity|]. split; [reflexivity|].
    split; [|split; [|exact Hoth]].
    + rewrite Z.eqb_eq. split.
      * intros H0 x Hx.
        assert (Hnil : filter (fun x => transport_ok (api x) = false) L = []).
        { destruct (filter _ L); [reflexivity|cbn in H0; lia]. }
        apply filter_nil_forall with (x := x) in Hnil; [|exact Hx].
        destruct (api x) eqn:Ha; [reflexivity| |]; cbn in Hnil; exfalso; apply Hnil; reflexivity.
      * intros Hall. replace (filter (fun x => transport_ok (api x) = false) L) with (@nil Z);
          [reflexivity|]. symmetry. apply filter_nil_forall. intros x Hx. rewrite (Hall x Hx).
        discriminate.
    + cbv zeta. subst L. rewrite <- Hrem.
      assert (Hnn : t' !! c <> Some []) by (apply Hne; rewrite Ht; discriminate).
      destruct (t' !! c) as [[|y l']|]; [congruence|reflexivity|reflexivity].
  - eexists _, t. split; [reflexivity|]. subst ids. cbn.
    split; [reflexivity|]. split; [reflexivity|]. split; [reflexivity|].
    split; [split; [intros _ x Hx; inversion Hx|reflexivity]|].
    split; [exact Ht|tauto].
Qed.

(** [deleteMessage] answers for chat 5: an HTTP failure for message 2,
    ok for the others. *)
Definition sample_api (messageId : Z) : transport_state :=
  if messageId =? 2 then transport_http_error else transport_up.

Lemma clearTracked_counts_witness :
  (forall x, x ∈ [1; 2; 3] -> sample_api x <> transport_unreachable) /\
  exists r t',
    clearTrackedTelegramChatHistory sample_api 5 sample_tracker = (Some r, t') /\
    attemptedCount r = 3 /\ deletedCount r = 2 /\ failedCount r = 1 /\
    (clear_ok r = true <-> forall x, x ∈ [1; 2; 3] -> sample_api x = transport_up) /\
    t' !! 5 = Some [2] /\
    (forall c', c' <> 5 -> t' !! c' = sample_tracker !! c').
Proof.
  assert (Hnu : forall x, x ∈ [1; 2; 3] -> sample_api x <> transport_unreachable).
  { intros x _. unfold sample_api. destruct (x =? 2); discriminate. }
  split; [exact Hnu|].
  exact (clearTracked_counts sample_api 5 sample_tracker Hnu).
Defined.

(** A [deleteMessage] request that raises for one tracked id makes
    [clearTrackedTelegramChatHistory] raise: no counts are returned. *)
Theorem clearTracked_raises (api : Z -> transport_state) (c x : Z) (t : tracker) :
  x ∈ default [] (t !! c) -> api x = transport_unreachable ->
  fst (clearTrackedTelegramChatHistory api c t) = None.
Proof.
  intros Hx Hu. unfold clearTrackedTelegramChatHistory.
  destruct (t !! c) as [[|i rest]|]; cbn [default] in Hx; try (inversion Hx; fail).
  pose proof (sort_desc_Permutation (i :: rest)) as Hperm.
  assert (Hx' : x ∈ sort_desc (i :: rest)) by (rewrite Hperm; exact Hx).
  pose proof (delete_each_raises api c _ 0 0 t x Hx' Hu) as Hn.
  destruct (delete_each api c (sort_desc (i :: rest)) 0 0 t) as [[[d f]|] t']; [discriminate|reflexivity].
Qed.

Lemma clearTracked_raises_witness :
  (3 ∈ default [] (sample_tracker !! 5) /\
   (fun m => if m =? 3 then transport_unreachable else transport_up) 3 = transport_unreachable) /\
  fst (clearTrackedTelegramChatHistory
         (fun m => if m =? 3 then transport_unreachable else transport_up) 5 sample_tracker) = None.
Proof.
  assert (Hx : 3 ∈ default [] (sample_tracker !! 5)).
  { change (3 ∈ [1; 2; 3]). right. right. left. }
  split; [split; [exact Hx|reflexivity]|].
  exact (clearTracked_raises (fun m => if m =? 3 then transport_unreachable else transport_up)
           5 3 sample_tracker Hx eq_refl).
Defined.

(** ** Successful payments *)

Lemma bind_inr {A B} (m : M A) (k : A -> M B) (w w' : world) (a : A) :
  m w = (inr a, w') -> bind m k w = k a w'.
Proof. intros H. unfold bind. now rewrite H. Qed.


(** User 300 forwarding the invoice built for user 200. *)
Definition sample_foreign_payment : payment_message :=
  {| pm_chat_id := 300; pm_from := Some (300, None);
     pm_currency := txt "XTR"; pm_total_amount := 100;
     pm_invoice_payload := buildSubscriptionInvoicePayload 200 1 |}.

